(** * pSim: the cart-and-box scene

    A shallow embedding of [src/components/Scene.tsx] (the scene component:
    derived geometry, reset, the per-frame callback, the reset sequencer) and
    of the application shell that drives it (start / stop / reset handlers and
    the telemetry read-out).

    Conventions of the embedding.
    - A JavaScript [number] is an exact rational ([Q]); rounding, infinities
      and NaN of IEEE doubles are outside the model.  Arithmetic facts are
      stated up to [==] on [Q]; values the code merely copies are stated with
      Leibniz equality.
    - React state and refs are fields of [Scene.State]; a state setter takes
      effect at once (each handler, effect, frame and timer callback runs
      atomically, with a re-render in between).
    - Browser timers are an explicit queue ([Browser.Window]).
    - The rigid-body engine and the camera are external: a body handle is a
      record of the attributes the scene reads and writes.
    - Object selection, the wheel-position debug read-out and console logging
      do not influence any modelled quantity and are left out. *)

From Stdlib Require Import QArith Qabs Lqa ZArith PArith List Bool Lia.
Import ListNotations.
Open Scope Q_scope.

(** ** Numbers *)

Module Num.

Definition ltb (a b : Q) : bool := negb (Qle_bool b a).
Definition gtb (a b : Q) : bool := ltb b a.
Definition geb (a b : Q) : bool := Qle_bool b a.

(** JavaScript truthiness of a number: everything but zero. *)
Definition truthy (a : Q) : bool := negb (Qeq_bool a 0).

End Num.

(** ** Vectors and quaternions *)

Module Vec3.
Record t := mk { x : Q; y : Q; z : Q }.
Definition zero : t := mk 0 0 0.
End Vec3.

Module Quat.
Record t := mk { x : Q; y : Q; z : Q; w : Q }.
Definition identity : t := mk 0 0 0 1.
(** Squared Euclidean norm; a rotation is a quaternion of squared norm 1. *)
Definition normSq (q : t) : Q := x q * x q + y q * y q + z q * z q + w q * w q.
End Quat.

(** ** Derived geometry (module-level constants of Scene.tsx) *)

Record Size3 := { width : Q; height : Q; depth : Q }.
Record WheelSize := { radius : Q; wheel_width : Q }.

Definition CART_SIZE : Size3 := {| width := 2; height := 0.5; depth := 0.8 |}.
Definition BOX_SIZE : Size3 := {| width := 0.5; height := 0.5; depth := 0.5 |}.
Definition WHEEL_SIZE : WheelSize := {| radius := 0.1; wheel_width := 0.1 |}.

Definition FLOOR_HEIGHT : Q := -0.1.
Definition FLOOR_THICKNESS : Q := 0.2.
Definition FLOOR_TOP_Y : Q := FLOOR_HEIGHT + (FLOOR_THICKNESS / 2).

Definition WHEEL_CENTER_Y : Q := FLOOR_TOP_Y + radius WHEEL_SIZE.

Definition CART_BOTTOM_Y : Q := FLOOR_TOP_Y + (radius WHEEL_SIZE / 2).
Definition CART_CENTER_Y : Q := CART_BOTTOM_Y + (height CART_SIZE / 2).

Definition CART_HALF_WIDTH : Q := width CART_SIZE / 2.
Definition CART_HALF_DEPTH : Q := depth CART_SIZE / 2.
Definition WHEEL_HALF_WIDTH : Q := wheel_width WHEEL_SIZE / 2.

Definition WHEEL_FRONT_X : Q := CART_HALF_WIDTH.
Definition WHEEL_BACK_X : Q := - CART_HALF_WIDTH.
Definition WHEEL_LEFT_Z : Q := CART_HALF_DEPTH + WHEEL_HALF_WIDTH.
Definition WHEEL_RIGHT_Z : Q := - (CART_HALF_DEPTH + WHEEL_HALF_WIDTH).

Definition RECALCULATED_CART_POSITION : Vec3.t := Vec3.mk 0 CART_CENTER_Y 0.
Definition RECALCULATED_BOX_POSITION : Vec3.t :=
  Vec3.mk 0 (CART_CENTER_Y + (height CART_SIZE / 2) + (height BOX_SIZE / 2)) 0.

(** The four wheel meshes, positioned relative to the cart body (the JSX
    [position] attributes): front-left, front-right, back-left, back-right.
    Each wheel is a cylinder turned so that its axis, and hence its width,
    runs along z. *)
Definition wheelMeshPositions : list Vec3.t :=
  [ Vec3.mk WHEEL_FRONT_X (WHEEL_CENTER_Y - CART_CENTER_Y) WHEEL_LEFT_Z;
    Vec3.mk WHEEL_FRONT_X (WHEEL_CENTER_Y - CART_CENTER_Y) WHEEL_RIGHT_Z;
    Vec3.mk WHEEL_BACK_X (WHEEL_CENTER_Y - CART_CENTER_Y) WHEEL_LEFT_Z;
    Vec3.mk WHEEL_BACK_X (WHEEL_CENTER_Y - CART_CENTER_Y) WHEEL_RIGHT_Z ].

(** ** Rigid-body handles (the engine's interface) *)

Module Rapier.

(** A body handle: the attributes the scene reads and writes, and the mass
    the engine attaches to the body (what the handle's [mass()] returns).
    The scene never reads or sets the mass. *)
Record RigidBody := {
  translation : Vec3.t;
  linvel : Vec3.t;
  angvel : Vec3.t;
  rotation : Quat.t;
  sleeping : bool;
  mass : Q
}.

Definition setTranslation (v : Vec3.t) (b : RigidBody) : RigidBody :=
  {| translation := v; linvel := linvel b; angvel := angvel b;
     rotation := rotation b; sleeping := sleeping b; mass := mass b |}.

Definition setLinvel (v : Vec3.t) (b : RigidBody) : RigidBody :=
  {| translation := translation b; linvel := v; angvel := angvel b;
     rotation := rotation b; sleeping := sleeping b; mass := mass b |}.

Definition setAngvel (v : Vec3.t) (b : RigidBody) : RigidBody :=
  {| translation := translation b; linvel := linvel b; angvel := v;
     rotation := rotation b; sleeping := sleeping b; mass := mass b |}.

(** After [setRotation] the [rotation] field is the quaternion as the scene
    wrote it, not what the engine then holds: the engine keeps rotations
    normalized and keeps the old rotation when handed the zero quaternion.
    The scene reads a rotation only once per frame callback, before it
    writes one, so a written value is never read back by the callback that
    wrote it; the rotation a later callback reads is the engine's and
    enters through [World.PhysicsStep]. *)
Definition setRotation (q : Quat.t) (b : RigidBody) : RigidBody :=
  {| translation := translation b; linvel := linvel b; angvel := angvel b;
     rotation := q; sleeping := sleeping b; mass := mass b |}.

Definition wakeUp (b : RigidBody) : RigidBody :=
  {| translation := translation b; linvel := linvel b; angvel := angvel b;
     rotation := rotation b; sleeping := false; mass := mass b |}.

(** Modelled from the spec: the engine's [applyImpulse] is not part of the
    sources; the glossary gives its effect, "an instantaneous change in
    momentum applied to a body, converted internally to a velocity change
    via impulse / mass".  The mass is the body's own, as the engine has it;
    [wake] is the second argument of the call. *)
Definition applyImpulse (impulse : Vec3.t) (wake : bool) (b : RigidBody)
    : RigidBody :=
  {| translation := translation b;
     linvel := Vec3.mk (Vec3.x (linvel b) + Vec3.x impulse / mass b)
                       (Vec3.y (linvel b) + Vec3.y impulse / mass b)
                       (Vec3.z (linvel b) + Vec3.z impulse / mass b);
     angvel := angvel b;
     rotation := rotation b;
     sleeping := if wake then false else sleeping b;
     mass := mass b |}.

End Rapier.

(** ** Browser timers and clock *)

Module Browser.

(** The three closures the scene hands to [setTimeout]. *)
Inductive TimerAction :=
| ResetCallback                       (* first stage of a reset, 100 ms *)
| ReenableCallback                    (* second stage of a reset, 1000 ms *)
| CompleteCallback (present : bool).  (* () => onSimulationComplete?.() *)

Record Timer := { tid : positive; due : Z; action : TimerAction }.

(** [clock] is [Date.now()], in milliseconds.  Timer identifiers are
    positive and never reused. *)
Record Window := { clock : Z; pending : list Timer; nextTimerId : positive }.

Definition setTimeout (a : TimerAction) (delay : Z) (w : Window)
    : positive * Window :=
  (nextTimerId w,
   {| clock := clock w;
      pending := pending w ++ [ {| tid := nextTimerId w;
                                   due := (clock w + delay)%Z;
                                   action := a |} ];
      nextTimerId := Pos.succ (nextTimerId w) |}).

Definition clearTimeout (id : positive) (w : Window) : Window :=
  {| clock := clock w;
     pending := filter (fun t => negb (Pos.eqb (tid t) id)) (pending w);
     nextTimerId := nextTimerId w |}.

Definition advance (ms : Z) (w : Window) : Window :=
  {| clock := (clock w + ms)%Z; pending := pending w;
     nextTimerId := nextTimerId w |}.

(** [Date.now() / 1000] *)
Definition nowSeconds (w : Window) : Q := inject_Z (clock w) / 1000.

End Browser.

(** ** The scene component *)

Module Scene.
Import Rapier Browser.

(** [SceneProps].  The two optional callbacks are represented by their
    presence; their invocations are recorded as [Call]s. *)
Record Props := {
  floorFriction : Q;
  cartBoxFriction : Q;
  cartWeight : Q;
  boxWeight : Q;
  maxSpeed : Q;
  acceleration : Q;
  deceleration : Q;
  distance : Q;
  isSimulating : bool;
  onSimulationComplete : bool;
  onSimulationUpdate : bool
}.

Inductive Call :=
| SimulationUpdate (time dist speed : Q)
| SimulationComplete.

(** The camera: its position, and its orientation as far as the scene
    determines it (the argument of the last [lookAt]). *)
Inductive Orientation :=
| InitialOrientation
| LookingAt (target : Vec3.t).

Record Camera := { position : Vec3.t; orientation : Orientation }.

(** State and refs of the reset sequencer. *)
Record Flags := {
  prevIsSimulating : bool;
  resetJustApplied : bool;
  physicsEnabled : bool;
  resetTimerRef : option positive
}.

(** Refs captured when a run starts, for the camera. *)
Record FollowRefs := {
  simulationStartCameraPosition : option Vec3.t;
  simulationStartCartPosition : option Vec3.t;
  cameraOffset : option Vec3.t;
  simulationStartCameraDirection : option Orientation
}.

(** Refs captured when a run starts, for the telemetry. *)
Record TelemetryRefs := {
  simulationStartTime : option Q;
  initialCartPosition : option Vec3.t
}.

Record State := {
  cartRef : option RigidBody;
  boxRef : option RigidBody;
  flags : Flags;
  wheelRotation : Q;
  camera : Camera;
  initialCameraPosition : Vec3.t;
  follow : FollowRefs;
  telemetry : TelemetryRefs
}.

Definition set_cartRef (v : option RigidBody) (s : State) : State :=
  {| cartRef := v; boxRef := boxRef s; flags := flags s;
     wheelRotation := wheelRotation s; camera := camera s;
     initialCameraPosition := initialCameraPosition s;
     follow := follow s; telemetry := telemetry s |}.

Definition set_boxRef (v : option RigidBody) (s : State) : State :=
  {| cartRef := cartRef s; boxRef := v; flags := flags s;
     wheelRotation := wheelRotation s; camera := camera s;
     initialCameraPosition := initialCameraPosition s;
     follow := follow s; telemetry := telemetry s |}.

Definition set_flags (v : Flags) (s : State) : State :=
  {| cartRef := cartRef s; boxRef := boxRef s; flags := v;
     wheelRotation := wheelRotation s; camera := camera s;
     initialCameraPosition := initialCameraPosition s;
     follow := follow s; telemetry := telemetry s |}.

Definition setWheelRotation (v : Q) (s : State) : State :=
  {| cartRef := cartRef s; boxRef := boxRef s; flags := flags s;
     wheelRotation := v; camera := camera s;
     initialCameraPosition := initialCameraPosition s;
     follow := follow s; telemetry := telemetry s |}.

Definition set_camera (v : Camera) (s : State) : State :=
  {| cartRef := cartRef s; boxRef := boxRef s; flags := flags s;
     wheelRotation := wheelRotation s; camera := v;
     initialCameraPosition := initialCameraPosition s;
     follow := follow s; telemetry := telemetry s |}.

Definition set_follow (v : FollowRefs) (s : State) : State :=
  {| cartRef := cartRef s; boxRef := boxRef s; flags := flags s;
     wheelRotation := wheelRotation s; camera := camera s;
     initialCameraPosition := initialCameraPosition s;
     follow := v; telemetry := telemetry s |}.

Definition set_telemetry (v : TelemetryRefs) (s : State) : State :=
  {| cartRef := cartRef s; boxRef := boxRef s; flags := flags s;
     wheelRotation := wheelRotation s; camera := camera s;
     initialCameraPosition := initialCameraPosition s;
     follow := follow s; telemetry := v |}.

Definition setPrevIsSimulating (v : bool) (s : State) : State :=
  set_flags {| prevIsSimulating := v;
               resetJustApplied := resetJustApplied (flags s);
               physicsEnabled := physicsEnabled (flags s);
               resetTimerRef := resetTimerRef (flags s) |} s.

Definition setResetJustApplied (v : bool) (s : State) : State :=
  set_flags {| prevIsSimulating := prevIsSimulating (flags s);
               resetJustApplied := v;
               physicsEnabled := physicsEnabled (flags s);
               resetTimerRef := resetTimerRef (flags s) |} s.

Definition setPhysicsEnabled (v : bool) (s : State) : State :=
  set_flags {| prevIsSimulating := prevIsSimulating (flags s);
               resetJustApplied := resetJustApplied (flags s);
               physicsEnabled := v;
               resetTimerRef := resetTimerRef (flags s) |} s.

Definition set_resetTimerRef (v : option positive) (s : State) : State :=
  set_flags {| prevIsSimulating := prevIsSimulating (flags s);
               resetJustApplied := resetJustApplied (flags s);
               physicsEnabled := physicsEnabled (flags s);
               resetTimerRef := v |} s.

Definition noFollowRefs : FollowRefs :=
  {| simulationStartCameraPosition := None;
     simulationStartCartPosition := None;
     cameraOffset := None;
     simulationStartCameraDirection := None |}.

(** *** resetSimulation *)

(** The cart half: rotation, velocities, wake-up, translation, velocities
    once more. *)
Definition resetCart (cart : RigidBody) : RigidBody :=
  setAngvel Vec3.zero
    (setLinvel Vec3.zero
      (setTranslation (Vec3.mk (Vec3.x RECALCULATED_CART_POSITION)
                               (Vec3.y RECALCULATED_CART_POSITION)
                               (Vec3.z RECALCULATED_CART_POSITION))
        (wakeUp
          (setAngvel Vec3.zero
            (setLinvel Vec3.zero
              (setRotation Quat.identity cart)))))).

(** The box half, given the cart's translation as read back after
    [resetCart]. *)
Definition resetBox (cartPosition : Vec3.t) (box : RigidBody) : RigidBody :=
  let cartTopSurfaceHeight := Vec3.y cartPosition + (height CART_SIZE / 2) in
  let boxYPosition := cartTopSurfaceHeight + (height BOX_SIZE / 2) in
  setAngvel Vec3.zero
    (setLinvel Vec3.zero
      (setTranslation (Vec3.mk (Vec3.x cartPosition) boxYPosition
                               (Vec3.z cartPosition))
        (wakeUp
          (setAngvel Vec3.zero
            (setLinvel Vec3.zero
              (setRotation Quat.identity box)))))).

Definition resetSimulation (s : State) : State :=
  match cartRef s with
  | Some cart =>
      let cart' := resetCart cart in
      let s1 := set_cartRef (Some cart') s in
      let cartPosition := translation cart' in
      let s2 :=
        match boxRef s1 with
        | Some box => set_boxRef (Some (resetBox cartPosition box)) s1
        | None => s1
        end in
      setWheelRotation 0 s2
  | None => s
  end.

(** *** The effect on [isSimulating] *)

Definition captureRunStart (cart : RigidBody) (w : Window) (s : State)
    : State :=
  let cartPosition := translation cart in
  let cam := position (camera s) in
  set_follow
    {| simulationStartCameraPosition := Some cam;
       simulationStartCartPosition :=
         Some (Vec3.mk (Vec3.x cartPosition) (Vec3.y cartPosition)
                       (Vec3.z cartPosition));
       cameraOffset :=
         Some (Vec3.mk (Vec3.x cam - Vec3.x cartPosition)
                       (Vec3.y cam - Vec3.y cartPosition)
                       (Vec3.z cam - Vec3.z cartPosition));
       simulationStartCameraDirection := Some (orientation (camera s)) |}
    (set_telemetry
      {| simulationStartTime := Some (nowSeconds w);
         initialCartPosition :=
           Some (Vec3.mk (Vec3.x cartPosition) (Vec3.y cartPosition)
                         (Vec3.z cartPosition)) |}
      s).

(** Runs whenever the [isSimulating] prop has changed; [prevIsSimulating]
    still holds the value of the previous render. *)
Definition isSimulatingEffect (p : Props) (st : State * Window)
    : State * Window :=
  let (s, w) := st in
  let prev := prevIsSimulating (flags s) in
  let s1 :=
    if negb prev && isSimulating p then
      match cartRef s with
      | Some cart => captureRunStart cart w s
      | None => s
      end
    else s in
  let st2 :=
    if prev && negb (isSimulating p) then
      let s2 := set_telemetry {| simulationStartTime := None;
                                 initialCartPosition := None |} s1 in
      let s3 := setPhysicsEnabled false s2 in
      (s3, snd (setTimeout ResetCallback 100 w))
    else (s1, w) in
  (setPrevIsSimulating (isSimulating p) (fst st2), snd st2).

(** *** Timer callbacks *)

Definition resetCallback (st : State * Window) : State * Window :=
  let (s, w) := st in
  let s1 := resetSimulation s in
  let s2 := setResetJustApplied true s1 in
  let s3 := set_camera {| position := initialCameraPosition s2;
                          orientation := orientation (camera s2) |} s2 in
  let s4 := set_follow noFollowRefs s3 in
  let w1 := match resetTimerRef (flags s4) with
            | Some id => clearTimeout id w
            | None => w
            end in
  let (id, w2) := setTimeout ReenableCallback 1000 w1 in
  (set_resetTimerRef (Some id) s4, w2).

Definition reenableCallback (st : State * Window) : State * Window :=
  let (s, w) := st in
  (set_resetTimerRef None (setPhysicsEnabled true (setResetJustApplied false s)),
   w).

Definition runTimer (a : TimerAction) (st : State * Window)
    : (State * Window) * list Call :=
  match a with
  | ResetCallback => (resetCallback st, [])
  | ReenableCallback => (reenableCallback st, [])
  | CompleteCallback present =>
      (st, if present then [SimulationComplete] else [])
  end.

(** *** The frame callback *)

(** Camera follow. *)
Definition followCamera (p : Props) (cartPosition : Vec3.t) (s : State)
    : State :=
  match isSimulating p,
        simulationStartCameraPosition (follow s),
        cameraOffset (follow s),
        simulationStartCameraDirection (follow s) with
  | true, Some startCamera, Some offset, Some _ =>
      let smoothFactor := 0.1 in
      let targetCameraX := Vec3.x cartPosition + Vec3.x offset in
      let newX := Vec3.x (position (camera s))
                  + (targetCameraX - Vec3.x (position (camera s)))
                    * smoothFactor in
      let targetPosition := Vec3.mk (Vec3.x cartPosition)
                                    (Vec3.y cartPosition)
                                    (Vec3.z cartPosition) in
      set_camera {| position := Vec3.mk newX (Vec3.y startCamera)
                                             (Vec3.z startCamera);
                    orientation := LookingAt targetPosition |} s
  | _, _, _, _ => s
  end.

(** The forward impulse of this frame, if any. *)
Definition accelerationImpulse (p : Props) (delta : Q)
    (currentVelocity : Vec3.t) : option Vec3.t :=
  if Num.ltb (Vec3.x currentVelocity) (maxSpeed p)
  then Some (Vec3.mk (acceleration p * delta * cartWeight p) 0 0)
  else None.

(** The reverse impulse of this frame, if any. *)
Definition decelerationImpulse (p : Props) (delta : Q)
    (cartPosition : Vec3.t) : option Vec3.t :=
  if Num.geb (Vec3.x cartPosition) (distance p)
  then Some (Vec3.mk ((- deceleration p) * delta * cartWeight p) 0 0)
  else None.

(** [cartRef.current.applyImpulse(impulse, true)], when there is one.  The
    scene scales the impulse by [cartWeight]; the velocity change is the
    engine's, by the mass it holds for the body. *)
Definition applyTo (impulse : option Vec3.t) (cart : RigidBody)
    : RigidBody :=
  match impulse with
  | Some i => applyImpulse i true cart
  | None => cart
  end.

Definition applied (impulse : option Vec3.t) : list Vec3.t :=
  match impulse with Some i => [i] | None => [] end.

(** Inside the deceleration branch: the deferred completion signal. *)
Definition stoppedBeyondTarget (p : Props)
    (cartPosition currentVelocity : Vec3.t) : bool :=
  Num.geb (Vec3.x cartPosition) (distance p)
  && Num.ltb (Qabs (Vec3.x currentVelocity)) 0.1.

Definition scheduleCompletion (p : Props)
    (cartPosition currentVelocity : Vec3.t) (w : Window) : Window :=
  if stoppedBeyondTarget p cartPosition currentVelocity
  then snd (setTimeout (CompleteCallback (onSimulationComplete p)) 100 w)
  else w.

(** Box handling right after a reset ([resetJustApplied]). *)
Definition lockBoxToCart (cartPosition currentVelocity : Vec3.t)
    (box : RigidBody) : RigidBody :=
  let cartTopSurfaceHeight := Vec3.y cartPosition + (height CART_SIZE / 2) in
  let boxYPosition := cartTopSurfaceHeight + (height BOX_SIZE / 2) in
  setRotation Quat.identity
    (setAngvel Vec3.zero
      (setLinvel (Vec3.mk (Vec3.x currentVelocity) 0 0)
        (setTranslation (Vec3.mk (Vec3.x cartPosition) boxYPosition
                                 (Vec3.z cartPosition))
          box))).

Definition isBoxAboveCart (boxPosition cartPosition : Vec3.t) : bool :=
  Num.ltb (Qabs (Vec3.x boxPosition - Vec3.x cartPosition)) 0.9
  && Num.ltb (Qabs (Vec3.z boxPosition - Vec3.z cartPosition)) 0.4.

Definition isTilted (boxRotation : Quat.t) : bool :=
  Num.gtb (Qabs (Quat.x boxRotation)) 0.01
  || Num.gtb (Qabs (Quat.z boxRotation)) 0.01.

(** Box handling during normal running. *)
Definition stabilizeBox (cartPosition : Vec3.t) (box : RigidBody)
    : RigidBody :=
  let boxPosition := translation box in
  if isBoxAboveCart boxPosition cartPosition then
    let boxRotation := rotation box in
    let box1 :=
      if isTilted boxRotation
      then setRotation (Quat.mk 0 (Quat.y boxRotation) 0 (Quat.w boxRotation))
                       box
      else box in
    let boxVelocity := linvel box1 in
    if Num.gtb (Qabs (Vec3.y boxVelocity)) 1
    then setLinvel (Vec3.mk (Vec3.x boxVelocity)
                            (Vec3.y boxVelocity * 0.7)
                            (Vec3.z boxVelocity)) box1
    else box1
  else box.

Definition manageBox (cartPosition currentVelocity : Vec3.t) (s : State)
    : State :=
  match boxRef s with
  | Some box =>
      set_boxRef
        (Some (if resetJustApplied (flags s)
               then lockBoxToCart cartPosition currentVelocity box
               else stabilizeBox cartPosition box))
        s
  | None => s
  end.

(** Telemetry: the callbacks invoked
    at the end of the frame, in order. *)
Definition telemetryCalls (p : Props) (s : State) (w : Window) : list Call :=
  match isSimulating p, cartRef s, onSimulationUpdate p,
        simulationStartTime (telemetry s),
        initialCartPosition (telemetry s) with
  | true, Some cart, true, Some startTime, Some initialPosition =>
      if Num.truthy startTime then
        let currentTime := nowSeconds w in
        let elapsedTime := currentTime - startTime in
        let cartPosition := translation cart in
        let cartVelocity := linvel cart in
        let travelDistance :=
          Qabs (Vec3.x cartPosition - Vec3.x initialPosition) in
        let currentSpeed := Qabs (Vec3.x cartVelocity) in
        SimulationUpdate elapsedTime travelDistance currentSpeed
        :: (if Num.geb travelDistance (distance p) && onSimulationComplete p
            then [SimulationComplete] else [])
      else []
  | _, _, _, _, _ => []
  end.

(** The guard at the top of the frame callback, read positively. *)
Definition running (p : Props) (s : State) : bool :=
  isSimulating p && physicsEnabled (flags s).

(** Sum of the travel-axis components of a list of impulses. *)
Definition netImpulseX (l : list Vec3.t) : Q :=
  fold_right (fun i acc => Vec3.x i + acc) 0 l.

Definition completeCalls (cs : list Call) : nat :=
  length (filter (fun c => match c with
                           | SimulationComplete => true
                           | SimulationUpdate _ _ _ => false
                           end) cs).

Record FrameResult := {
  after : State * Window;
  impulses : list Vec3.t;   (* impulses applied to the cart, in order *)
  calls : list Call         (* callbacks invoked synchronously, in order *)
}.

Definition useFrame (p : Props) (delta : Q) (st : State * Window)
    : FrameResult :=
  let (s, w) := st in
  if negb (physicsEnabled (flags s)) || negb (isSimulating p) then
    {| after := st; impulses := []; calls := [] |}
  else
    match cartRef s with
    | Some cart =>
        let currentVelocity := linvel cart in
        let cartPosition := translation cart in
        let s1 := followCamera p cartPosition s in
        let forward := accelerationImpulse p delta currentVelocity in
        let cart1 := applyTo forward cart in
        let wheelRotationSpeed := Vec3.x currentVelocity * 10 in
        let s2 := setWheelRotation
                    (wheelRotation s1 + wheelRotationSpeed * delta)
                    (set_cartRef (Some cart1) s1) in
        let s3 := manageBox (translation cart1) currentVelocity s2 in
        let reverse := decelerationImpulse p delta cartPosition in
        let cart2 := applyTo reverse cart1 in
        let s4 := set_cartRef (Some cart2) s3 in
        let w1 := scheduleCompletion p cartPosition currentVelocity w in
        {| after := (s4, w1);
           impulses := applied forward ++ applied reverse;
           calls := telemetryCalls p s4 w1 |}
    | None =>
        {| after := st; impulses := []; calls := telemetryCalls p s w |}
    end.

End Scene.

(** ** The application shell *)

Module App.

Record Params := {
  floorFriction : Q;
  cartBoxFriction : Q;
  cartWeight : Q;
  boxWeight : Q;
  maxSpeed : Q;
  acceleration : Q;
  deceleration : Q;
  distance : Q
}.

(** The defaults of the [useState] calls. *)
Definition defaults : Params :=
  {| floorFriction := 0.5; cartBoxFriction := 0.5; cartWeight := 10;
     boxWeight := 5; maxSpeed := 10; acceleration := 5; deceleration := 3;
     distance := 100 |}.

Record State := {
  params : Params;
  isSimulating : bool;
  isPaused : bool;
  simulationTime : Q;
  simulationDistance : Q;
  simulationSpeed : Q
}.

Definition init (ps : Params) : State :=
  {| params := ps; isSimulating := false; isPaused := false;
     simulationTime := 0; simulationDistance := 0; simulationSpeed := 0 |}.

Definition handleStart (a : State) : State :=
  {| params := params a; isSimulating := true; isPaused := false;
     simulationTime := 0; simulationDistance := 0; simulationSpeed := 0 |}.

Definition handleStop (a : State) : State :=
  {| params := params a; isSimulating := isSimulating a; isPaused := true;
     simulationTime := simulationTime a;
     simulationDistance := simulationDistance a;
     simulationSpeed := simulationSpeed a |}.

Definition handleReset (a : State) : State :=
  {| params := params a; isSimulating := false; isPaused := false;
     simulationTime := 0; simulationDistance := 0; simulationSpeed := 0 |}.

Definition handleSimulationComplete (a : State) : State :=
  {| params := params a; isSimulating := false; isPaused := isPaused a;
     simulationTime := simulationTime a;
     simulationDistance := simulationDistance a;
     simulationSpeed := simulationSpeed a |}.

Definition handleSimulationUpdate (time cartDistance cartSpeed : Q)
    (a : State) : State :=
  {| params := params a; isSimulating := isSimulating a;
     isPaused := isPaused a;
     simulationTime := time;
     simulationDistance := cartDistance;
     simulationSpeed := cartSpeed |}.

(** The [disabled] attributes of the three buttons. *)
Definition startDisabled (a : State) : bool :=
  isSimulating a && negb (isPaused a).
Definition stopDisabled (a : State) : bool := negb (isSimulating a).
Definition resetDisabled (a : State) : bool :=
  negb (isSimulating a) && negb (isPaused a).

(** The distance read-out, before formatting to one decimal: the stored
    value while simulating or paused, the literal 0.0 otherwise. *)
Definition displayedDistance (a : State) : Q :=
  if isSimulating a || isPaused a then simulationDistance a else 0.

(** Neither simulating nor paused ("ready"). *)
Definition idle (a : State) : bool :=
  negb (isSimulating a) && negb (isPaused a).

(** The props handed to the scene; both callbacks are always supplied. *)
Definition sceneProps (a : State) : Scene.Props :=
  {| Scene.floorFriction := floorFriction (params a);
     Scene.cartBoxFriction := cartBoxFriction (params a);
     Scene.cartWeight := cartWeight (params a);
     Scene.boxWeight := boxWeight (params a);
     Scene.maxSpeed := maxSpeed (params a);
     Scene.acceleration := acceleration (params a);
     Scene.deceleration := deceleration (params a);
     Scene.distance := distance (params a);
     Scene.isSimulating := isSimulating a;
     Scene.onSimulationComplete := true;
     Scene.onSimulationUpdate := true |}.

End App.

(** ** The running page: shell, scene and timers together *)

Module World.
Import Rapier Browser.

Inductive Entry :=
| Called (c : Scene.Call)
| Fired (t : Timer)
| ResetRequested (stillPending : list positive).
  (* a reset begins; the reset-sequence timers pending at that moment *)

Record t := {
  app : App.State;
  scene : Scene.State;
  window : Window;
  history : list (Z * Entry)   (* oldest first *)
}.

Definition isResetTimer (tm : Timer) : bool :=
  match action tm with
  | ResetCallback | ReenableCallback => true
  | CompleteCallback _ => false
  end.

Definition isReenableTimer (tm : Timer) : bool :=
  match action tm with
  | ReenableCallback => true
  | _ => false
  end.

Definition record (e : Entry) (w : t) : list (Z * Entry) :=
  history w ++ [(clock (window w), e)].

(** A render of the scene with the shell's current state: the effect runs
    if [isSimulating] differs from the previous render. *)
Definition rerender (w : t) : t :=
  let p := App.sceneProps (app w) in
  if Bool.eqb (Scene.isSimulating p)
              (Scene.prevIsSimulating (Scene.flags (scene w)))
  then w
  else
    let st := Scene.isSimulatingEffect p (scene w, window w) in
    {| app := app w; scene := fst st; window := snd st;
       history :=
         if Scene.isSimulating p then history w
         else record (ResetRequested
                        (map tid (filter isResetTimer (pending (window w)))))
                     w |}.

Definition notify (w : t) (c : Scene.Call) : t :=
  rerender
    {| app := match c with
              | Scene.SimulationUpdate time dist speed =>
                  App.handleSimulationUpdate time dist speed (app w)
              | Scene.SimulationComplete =>
                  App.handleSimulationComplete (app w)
              end;
       scene := scene w; window := window w;
       history := record (Called c) w |}.

Definition deliver (cs : list Scene.Call) (w : t) : t :=
  fold_left notify cs w.

Definition click (disabled : App.State -> bool)
    (handler : App.State -> App.State) (w : t) : t :=
  if disabled (app w) then w
  else rerender {| app := handler (app w); scene := scene w;
                   window := window w; history := history w |}.

(** A timer comes due: it leaves the queue and its closure runs. *)
Definition fire (tm : Timer) (w : t) : t :=
  let w0 := clearTimeout (tid tm) (window w) in
  let r := Scene.runTimer (action tm) (scene w, w0) in
  deliver (snd r)
    {| app := app w; scene := fst (fst r); window := snd (fst r);
       history := record (Fired tm) w |}.

Fixpoint fireDue (fuel : nat) (w : t) : t :=
  match fuel with
  | O => w
  | S fuel' =>
      match find (fun tm => (due tm <=? clock (window w))%Z)
                 (pending (window w)) with
      | Some tm => fireDue fuel' (fire tm w)
      | None => w
      end
  end.

(** One millisecond passes; the timers now due fire in the order in which
    they were set. *)
Definition tick (w : t) : t :=
  let w1 := {| app := app w; scene := scene w;
               window := advance 1 (window w); history := history w |} in
  fireDue (length (pending (window w1))) w1.

Inductive Event :=
| ClickStart
| ClickStop
| ClickReset
| PhysicsStep (cart box : RigidBody)  (* the engine moves the bodies *)
| Frame (delta : Q)                   (* the frame callback runs *)
| Elapse (ms : nat).

Definition step (w : t) (e : Event) : t :=
  match e with
  | ClickStart => click App.startDisabled App.handleStart w
  | ClickStop => click App.stopDisabled App.handleStop w
  | ClickReset => click App.resetDisabled App.handleReset w
  | PhysicsStep cart box =>
      (* bodies are "dynamic" only while physics is enabled *)
      if Scene.physicsEnabled (Scene.flags (scene w)) then
        {| app := app w;
           scene := Scene.set_boxRef (Some box)
                      (Scene.set_cartRef (Some cart) (scene w));
           window := window w; history := history w |}
      else w
  | Frame delta =>
      let r := Scene.useFrame (App.sceneProps (app w)) delta
                              (scene w, window w) in
      deliver (Scene.calls r)
        {| app := app w; scene := fst (Scene.after r);
           window := snd (Scene.after r); history := history w |}
  | Elapse ms => Nat.iter ms tick w
  end.

Definition run (es : list Event) (w : t) : t := fold_left step es w.

Definition restingBody (m : Q) (at_ : Vec3.t) : RigidBody :=
  {| translation := at_; linvel := Vec3.zero; angvel := Vec3.zero;
     rotation := Quat.identity; sleeping := false; mass := m |}.

(** The masses the mounted page starts with.  The sources do not compute
    them: the bodies are declared with [colliders="cuboid"], and the mass the
    engine works with is that of the colliders it generates.  Taken here is
    the volume of unit-density cuboid colliders around each mesh (the cart
    body and its four wheels; the box), whatever [cartWeight] and
    [boxWeight] are.  An engine step may replace the bodies by any others. *)
Definition cartBodyMass : Q :=
  width CART_SIZE * height CART_SIZE * depth CART_SIZE
  + 4 * ((2 * radius WHEEL_SIZE) * wheel_width WHEEL_SIZE
         * (2 * radius WHEEL_SIZE)).

Definition boxBodyMass : Q :=
  width BOX_SIZE * height BOX_SIZE * depth BOX_SIZE.

(** The page just after mounting, at clock reading [t0]: bodies at their
    declared positions, camera at the canvas default (10, 10, 10). *)
Definition mount (ps : App.Params) (t0 : Z) : t :=
  {| app := App.init ps;
     scene :=
       {| Scene.cartRef :=
            Some (restingBody cartBodyMass RECALCULATED_CART_POSITION);
          Scene.boxRef :=
            Some (restingBody boxBodyMass RECALCULATED_BOX_POSITION);
          Scene.flags := {| Scene.prevIsSimulating := false;
                            Scene.resetJustApplied := false;
                            Scene.physicsEnabled := true;
                            Scene.resetTimerRef := None |};
          Scene.wheelRotation := 0;
          Scene.camera := {| Scene.position := Vec3.mk 10 10 10;
                             Scene.orientation := Scene.InitialOrientation |};
          Scene.initialCameraPosition := Vec3.mk 10 10 10;
          Scene.follow := Scene.noFollowRefs;
          Scene.telemetry := {| Scene.simulationStartTime := None;
                                Scene.initialCartPosition := None |} |};
     window := {| clock := t0; pending := []; nextTimerId := 1 |};
     history := [] |}.

Definition firedTimers (h : list (Z * Entry)) : list Timer :=
  flat_map (fun e => match snd e with Fired tm => [tm] | _ => [] end) h.

Definition completions (h : list (Z * Entry)) : nat :=
  length (filter (fun e => match snd e with
                           | Called Scene.SimulationComplete => true
                           | _ => false
                           end) h).

(** Timers that were pending reset-sequence timers when some reset began
    and fired afterwards all the same. *)
Fixpoint staleFirings (h : list (Z * Entry)) : list Timer :=
  match h with
  | [] => []
  | (_, ResetRequested ids) :: rest =>
      filter (fun tm => existsb (Pos.eqb (tid tm)) ids) (firedTimers rest)
      ++ staleFirings rest
  | _ :: rest => staleFirings rest
  end.

Definition reportedDistances (h : list (Z * Entry)) : list Q :=
  flat_map (fun e => match snd e with
                     | Called (Scene.SimulationUpdate _ dist _) => [dist]
                     | _ => []
                     end) h.

(** *** Invariants of the running page *)

Definition refTimers (ref : option positive) : list positive :=
  match ref with Some id => [id] | None => [] end.

(** The timer queue is well formed with respect to [resetTimerRef]:
    identifiers are distinct and older than the next one to be issued, and
    the pending re-enable timers are exactly the one the ref records. *)
Record queueOk (win : Window) (ref : option positive) : Prop := {
  queue_nodup : NoDup (map tid (pending win));
  queue_fresh :
    Forall (fun tm => (tid tm < nextTimerId win)%positive) (pending win);
  queue_ref : map tid (filter isReenableTimer (pending win)) = refTimers ref
}.

Definition callOk (c : Scene.Call) : Prop :=
  match c with
  | Scene.SimulationUpdate time dist speed =>
      0 <= time /\ 0 <= dist /\ 0 <= speed
  | Scene.SimulationComplete => True
  end.

Definition entryOk (e : Z * Entry) : Prop :=
  match snd e with
  | Called c => callOk c
  | _ => True
  end.

Record ok (w : t) : Prop := {
  ok_queue :
    queueOk (window w) (Scene.resetTimerRef (Scene.flags (scene w)));
  ok_start :
    forall t0,
      Scene.simulationStartTime (Scene.telemetry (scene w)) = Some t0 ->
      t0 <= nowSeconds (window w);
  ok_history : Forall entryOk (history w)
}.

End World.

(** ** Sample inputs *)

Module Samples.
Import Rapier Browser.

(** A box-sized body. *)
Definition body (pos vel : Vec3.t) (rot : Quat.t) : RigidBody :=
  {| translation := pos; linvel := vel; angvel := Vec3.zero;
     rotation := rot; sleeping := false; mass := World.boxBodyMass |}.

(** A cart on its wheels at abscissa [x], moving at [v] along x. *)
Definition cartAt (x v : Q) : RigidBody :=
  {| translation := Vec3.mk x CART_CENTER_Y 0; linvel := Vec3.mk v 0 0;
     angvel := Vec3.zero; rotation := Quat.identity; sleeping := false;
     mass := World.cartBodyMass |}.

Definition props (ps : App.Params) : Scene.Props :=
  App.sceneProps (App.handleStart (App.init ps)).

(** A scene in the middle of a run that started at the origin at clock
    reading 1 s, with the given bodies. *)
Definition midRun (cart box : RigidBody) : Scene.State :=
  {| Scene.cartRef := Some cart;
     Scene.boxRef := Some box;
     Scene.flags := {| Scene.prevIsSimulating := true;
                       Scene.resetJustApplied := false;
                       Scene.physicsEnabled := true;
                       Scene.resetTimerRef := None |};
     Scene.wheelRotation := 0;
     Scene.camera := {| Scene.position := Vec3.mk 10 10 10;
                        Scene.orientation := Scene.InitialOrientation |};
     Scene.initialCameraPosition := Vec3.mk 10 10 10;
     Scene.follow :=
       {| Scene.simulationStartCameraPosition := Some (Vec3.mk 10 10 10);
          Scene.simulationStartCartPosition :=
            Some RECALCULATED_CART_POSITION;
          Scene.cameraOffset := Some (Vec3.mk 10 (10 - CART_CENTER_Y) 10);
          Scene.simulationStartCameraDirection :=
            Some Scene.InitialOrientation |};
     Scene.telemetry :=
       {| Scene.simulationStartTime := Some 1;
          Scene.initialCartPosition := Some RECALCULATED_CART_POSITION |} |}.

Definition windowAt (ms : Z) : Window :=
  {| clock := ms; pending := []; nextTimerId := 1 |}.

(** A box riding on the cart at abscissa [x]. *)
Definition boxOn (x : Q) : RigidBody :=
  body (Vec3.mk x (Vec3.y RECALCULATED_BOX_POSITION) 0) Vec3.zero
       Quat.identity.

(** Settings at the lower end of the sliders for speed and distance. *)
Definition slow : App.Params :=
  {| App.floorFriction := 0.5; App.cartBoxFriction := 0.5;
     App.cartWeight := 10; App.boxWeight := 5; App.maxSpeed := 0.1;
     App.acceleration := 5; App.deceleration := 3; App.distance := 1 |}.

End Samples.

(** ** Sessions: repeated frames, unmounting, and page conditions *)

Module Session.
Import Rapier Browser.

(** The cleanup of the mount effect: on unmount the timer recorded in
    [resetTimerRef] is cleared. *)
Definition unmountCleanup (st : Scene.State * Window) : Window :=
  match Scene.resetTimerRef (Scene.flags (fst st)) with
  | Some id => clearTimeout id (snd st)
  | None => snd st
  end.

(** [n] frame callbacks in a row, the engine not having moved the bodies in
    between. *)
Definition frames (p : Scene.Props) (delta : Q) (n : nat)
    (st : Scene.State * Window) : Scene.State * Window :=
  Nat.iter n (fun st' => Scene.after (Scene.useFrame p delta st')) st.

Fixpoint power (q : Q) (n : nat) : Q :=
  match n with
  | O => 1
  | S n' => q * power q n'
  end.

(** The scene has seen the shell's current [isSimulating]. *)
Definition synced (w : World.t) : Prop :=
  Scene.prevIsSimulating (Scene.flags (World.scene w))
  = App.isSimulating (World.app w).

(** Physics is switched off or the post-reset lock is on. *)
Definition settling (s : Scene.State) : bool :=
  negb (Scene.physicsEnabled (Scene.flags s))
  || Scene.resetJustApplied (Scene.flags s).

(** A timer of the reset sequence is pending. *)
Definition resetPending (win : Window) : Prop :=
  exists tm, In tm (pending win) /\ World.isResetTimer tm = true.

(** Beyond [World.ok]: the scene has seen the shell's [isSimulating], and
    whenever physics is off or the lock is on, a timer of the reset sequence
    is pending. *)
Definition pageOk (w : World.t) : Prop :=
  World.ok w
  /\ synced w
  /\ (settling (World.scene w) = true -> resetPending (World.window w)).

(** Two pages that differ at most in what the shell keeps for itself (the
    paused flag and the stored telemetry): same scene, timers and history,
    and the same props handed to the scene. *)
Definition sameScene (w1 w2 : World.t) : Prop :=
  World.scene w1 = World.scene w2
  /\ World.window w1 = World.window w2
  /\ World.history w1 = World.history w2
  /\ App.sceneProps (World.app w1) = App.sceneProps (World.app w2).

Definition isClick (e : World.Event) : bool :=
  match e with
  | World.ClickStart | World.ClickStop | World.ClickReset => true
  | _ => false
  end.

(** The page with its clock moved on by [ms] and nothing else changed. *)
Definition later (ms : Z) (w : World.t) : World.t :=
  {| World.app := World.app w; World.scene := World.scene w;
     World.window := advance ms (World.window w);
     World.history := World.history w |}.

End Session.

(** * Properties *)

Import Rapier Browser.

(** ** Comparisons *)

Lemma ltb_lt (a b : Q) : Num.ltb a b = true <-> a < b.
Proof.
  unfold Num.ltb. rewrite negb_true_iff.
  split; intro H.
  - apply Qnot_le_lt. intro Hle. apply Qle_bool_iff in Hle. congruence.
  - destruct (Qle_bool b a) eqn:E; [|reflexivity].
    apply Qle_bool_iff in E. exfalso. exact (Qlt_not_le _ _ H E).
Qed.

Lemma ltb_ge (a b : Q) : Num.ltb a b = false <-> b <= a.
Proof.
  unfold Num.ltb. rewrite negb_false_iff. apply Qle_bool_iff.
Qed.

Lemma geb_le (a b : Q) : Num.geb a b = true <-> b <= a.
Proof. unfold Num.geb. apply Qle_bool_iff. Qed.

Lemma geb_lt (a b : Q) : Num.geb a b = false <-> a < b.
Proof.
  unfold Num.geb. split; intro H.
  - apply Qnot_le_lt. intro Hle. apply Qle_bool_iff in Hle. congruence.
  - destruct (Qle_bool b a) eqn:E; [|reflexivity].
    apply Qle_bool_iff in E. exfalso. exact (Qlt_not_le _ _ H E).
Qed.

Lemma gtb_lt (a b : Q) : Num.gtb a b = true <-> b < a.
Proof. unfold Num.gtb. apply ltb_lt. Qed.

Lemma gtb_le (a b : Q) : Num.gtb a b = false <-> a <= b.
Proof. unfold Num.gtb. apply ltb_ge. Qed.

Lemma truthy_nonzero (a : Q) : Num.truthy a = true <-> ~ a == 0.
Proof.
  unfold Num.truthy. rewrite negb_true_iff. split; intro H.
  - intro E. apply Qeq_bool_iff in E. congruence.
  - destruct (Qeq_bool a 0) eqn:E; [|reflexivity].
    apply Qeq_bool_iff in E. contradiction.
Qed.

(** ** Derived geometry *)

(** C9.  Wheel centres sit one radius above the floor top; the cart centre
    sits half a radius plus half the cart height above it; the box starts
    with its centre half a box height above the cart's top face; and each of
    the four wheels (front/back, left/right, all distinct) has its centre at
    the cart's half length along x and at the cart's half depth plus half a
    wheel width along z, so that its inner side face lies in the plane of the
    cart's side face. *)
Theorem derived_geometry :
  WHEEL_CENTER_Y = FLOOR_TOP_Y + radius WHEEL_SIZE
  /\ CART_CENTER_Y = FLOOR_TOP_Y + (radius WHEEL_SIZE / 2) + (height CART_SIZE / 2)
  /\ Vec3.y RECALCULATED_CART_POSITION = CART_CENTER_Y
  /\ Vec3.y RECALCULATED_BOX_POSITION
     = CART_CENTER_Y + (height CART_SIZE / 2) + (height BOX_SIZE / 2)
  /\ Vec3.y RECALCULATED_BOX_POSITION - height BOX_SIZE / 2
     == Vec3.y RECALCULATED_CART_POSITION + height CART_SIZE / 2
  /\ map (fun c => (Vec3.x c, Vec3.z c)) wheelMeshPositions
     = [ (CART_HALF_WIDTH, CART_HALF_DEPTH + WHEEL_HALF_WIDTH);
         (CART_HALF_WIDTH, - (CART_HALF_DEPTH + WHEEL_HALF_WIDTH));
         (- CART_HALF_WIDTH, CART_HALF_DEPTH + WHEEL_HALF_WIDTH);
         (- CART_HALF_WIDTH, - (CART_HALF_DEPTH + WHEEL_HALF_WIDTH)) ]
  /\ Forall (fun c =>
               Qabs (Vec3.z c) - WHEEL_HALF_WIDTH == CART_HALF_DEPTH
               /\ Qabs (Vec3.x c) == CART_HALF_WIDTH
               /\ Vec3.y c + Vec3.y RECALCULATED_CART_POSITION
                  == FLOOR_TOP_Y + radius WHEEL_SIZE)
            wheelMeshPositions.
Proof.
  repeat split; try reflexivity.
  repeat constructor; reflexivity.
Qed.

(** ** Reset *)

(** C5.  With both body handles available, [resetSimulation] leaves the cart
    at the recalculated initial position with zero linear and angular
    velocity and the identity rotation, and the box at the cart's x and z,
    at height (cart y + half the cart height) + half the box height, with
    zero velocities and the identity rotation. *)
Theorem reset_restores_bodies (s : Scene.State) (cart box : RigidBody) :
  Scene.cartRef s = Some cart ->
  Scene.boxRef s = Some box ->
  exists cart' box',
    Scene.cartRef (Scene.resetSimulation s) = Some cart'
    /\ Scene.boxRef (Scene.resetSimulation s) = Some box'
    /\ translation cart' = RECALCULATED_CART_POSITION
    /\ linvel cart' = Vec3.zero
    /\ angvel cart' = Vec3.zero
    /\ rotation cart' = Quat.identity
    /\ Vec3.x (translation box') = Vec3.x (translation cart')
    /\ Vec3.z (translation box') = Vec3.z (translation cart')
    /\ Vec3.y (translation box')
       = (Vec3.y (translation cart') + height CART_SIZE / 2)
         + height BOX_SIZE / 2
    /\ linvel box' = Vec3.zero
    /\ angvel box' = Vec3.zero
    /\ rotation box' = Quat.identity.
Proof.
  intros Hc Hb.
  unfold Scene.resetSimulation. rewrite Hc. cbn. rewrite Hb. cbn.
  eexists. eexists. repeat split.
Qed.

(** A cart 37 m down the track at 6 m/s with a tilted, bouncing box beside
    it is put back. *)
Lemma reset_restores_bodies_witness :
  let cart := Samples.cartAt 37 6 in
  let box := Samples.body (Vec3.mk 38.5 0.25 0.3) (Vec3.mk 5 (-2) 0.1)
                          (Quat.mk 0.6 0 0 0.8) in
  exists cart' box',
    Scene.cartRef (Scene.resetSimulation (Samples.midRun cart box)) = Some cart'
    /\ Scene.boxRef (Scene.resetSimulation (Samples.midRun cart box)) = Some box'
    /\ translation cart' = RECALCULATED_CART_POSITION
    /\ linvel cart' = Vec3.zero
    /\ angvel cart' = Vec3.zero
    /\ rotation cart' = Quat.identity
    /\ Vec3.x (translation box') = Vec3.x (translation cart')
    /\ Vec3.z (translation box') = Vec3.z (translation cart')
    /\ Vec3.y (translation box')
       = (Vec3.y (translation cart') + height CART_SIZE / 2)
         + height BOX_SIZE / 2
    /\ linvel box' = Vec3.zero
    /\ angvel box' = Vec3.zero
    /\ rotation box' = Quat.identity.
Proof.
  intros cart box.
  apply (reset_restores_bodies (Samples.midRun cart box) cart box);
    reflexivity.
Defined.

(** ** Anatomy of a frame *)

Lemma running_inv (p : Scene.Props) (s : Scene.State) :
  Scene.running p s = true ->
  Scene.isSimulating p = true /\ Scene.physicsEnabled (Scene.flags s) = true.
Proof. unfold Scene.running. intro H. apply andb_true_iff in H. exact H. Qed.

Lemma followCamera_frame (p : Scene.Props) (c : Vec3.t) (s : Scene.State) :
  Scene.cartRef (Scene.followCamera p c s) = Scene.cartRef s
  /\ Scene.boxRef (Scene.followCamera p c s) = Scene.boxRef s
  /\ Scene.flags (Scene.followCamera p c s) = Scene.flags s
  /\ Scene.wheelRotation (Scene.followCamera p c s) = Scene.wheelRotation s
  /\ Scene.follow (Scene.followCamera p c s) = Scene.follow s
  /\ Scene.telemetry (Scene.followCamera p c s) = Scene.telemetry s.
Proof.
  unfold Scene.followCamera.
  destruct (Scene.isSimulating p);
    destruct (Scene.simulationStartCameraPosition (Scene.follow s));
    destruct (Scene.cameraOffset (Scene.follow s));
    destruct (Scene.simulationStartCameraDirection (Scene.follow s));
    repeat split.
Qed.

Lemma applyTo_translation (i : option Vec3.t) (b : RigidBody) :
  translation (Scene.applyTo i b) = translation b.
Proof. destruct i; reflexivity. Qed.

Lemma frame_anatomy (p : Scene.Props) (delta : Q) (s : Scene.State)
    (w : Window) (cart : RigidBody) :
  Scene.running p s = true ->
  Scene.cartRef s = Some cart ->
  let r := Scene.useFrame p delta (s, w) in
  let forward := Scene.accelerationImpulse p delta (linvel cart) in
  let reverse := Scene.decelerationImpulse p delta (translation cart) in
  Scene.impulses r = Scene.applied forward ++ Scene.applied reverse
  /\ Scene.cartRef (fst (Scene.after r))
     = Some (Scene.applyTo reverse (Scene.applyTo forward cart))
  /\ Scene.boxRef (fst (Scene.after r))
     = option_map
         (fun box => if Scene.resetJustApplied (Scene.flags s)
                     then Scene.lockBoxToCart (translation cart) (linvel cart) box
                     else Scene.stabilizeBox (translation cart) box)
         (Scene.boxRef s)
  /\ Scene.camera (fst (Scene.after r))
     = Scene.camera (Scene.followCamera p (translation cart) s)
  /\ Scene.flags (fst (Scene.after r)) = Scene.flags s
  /\ Scene.telemetry (fst (Scene.after r)) = Scene.telemetry s
  /\ snd (Scene.after r)
     = Scene.scheduleCompletion p (translation cart) (linvel cart) w
  /\ Scene.calls r
     = Scene.telemetryCalls p (fst (Scene.after r)) (snd (Scene.after r)).
Proof.
  intros Hrun Hcart.
  destruct (running_inv _ _ Hrun) as [Hsim Hphys].
  destruct (followCamera_frame p (translation cart) s)
    as (Fc & Fb & Ff & _ & _ & Ft).
  unfold Scene.useFrame. rewrite Hsim, Hphys, Hcart. cbn [negb orb].
  cbn [Scene.after Scene.impulses Scene.calls fst snd].
  unfold Scene.manageBox.
  cbn [Scene.boxRef Scene.set_cartRef Scene.setWheelRotation].
  rewrite Fb, applyTo_translation.
  destruct (Scene.boxRef s) as [box|]; cbn; rewrite ?Ff, ?Ft; repeat split;
    assumption.
Qed.

(** ** Motion controller *)

Lemma accelerationImpulse_below (p : Scene.Props) (delta : Q) (v : Vec3.t) :
  Vec3.x v < Scene.maxSpeed p ->
  Scene.accelerationImpulse p delta v
  = Some (Vec3.mk (Scene.acceleration p * delta * Scene.cartWeight p) 0 0).
Proof.
  intro H. unfold Scene.accelerationImpulse.
  apply ltb_lt in H. rewrite H. reflexivity.
Qed.

Lemma accelerationImpulse_above (p : Scene.Props) (delta : Q) (v : Vec3.t) :
  Scene.maxSpeed p <= Vec3.x v ->
  Scene.accelerationImpulse p delta v = None.
Proof.
  intro H. unfold Scene.accelerationImpulse.
  apply ltb_ge in H. rewrite H. reflexivity.
Qed.

Lemma decelerationImpulse_beyond (p : Scene.Props) (delta : Q) (c : Vec3.t) :
  Scene.distance p <= Vec3.x c ->
  Scene.decelerationImpulse p delta c
  = Some (Vec3.mk ((- Scene.deceleration p) * delta * Scene.cartWeight p) 0 0).
Proof.
  intro H. unfold Scene.decelerationImpulse.
  apply geb_le in H. rewrite H. reflexivity.
Qed.





(** C3.  In a frame that runs with the cart at or beyond the target distance,
    the reverse impulse (-deceleration * delta * cartWeight, 0, 0) is applied
    to the cart, last, whatever the velocity: the cart handle after the frame
    is the result of [applyImpulse] with it, and for a nonzero body mass m
    the cart's velocity.x drops by deceleration * delta * cartWeight / m
    from what the forward impulse, if any, left.  When the cart is also
    below maxSpeed (in speed, or merely in signed velocity) the frame applies
    exactly the forward and then the reverse impulse, of net travel-axis
    component (acceleration - deceleration) * delta * cartWeight, and the
    cart's velocity.x changes by that net impulse over m. *)
Theorem reverse_impulse (p : Scene.Props) (delta : Q) (s : Scene.State)
    (w : Window) (cart : RigidBody) :
  Scene.running p s = true ->
  Scene.cartRef s = Some cart ->
  Scene.distance p <= Vec3.x (translation cart) ->
  let r := Scene.useFrame p delta (s, w) in
  let push :=
    Vec3.mk (Scene.acceleration p * delta * Scene.cartWeight p) 0 0 in
  let brake :=
    Vec3.mk ((- Scene.deceleration p) * delta * Scene.cartWeight p) 0 0 in
  let pushed :=
    Scene.applyTo (Scene.accelerationImpulse p delta (linvel cart)) cart in
  Scene.impulses r
  = Scene.applied (Scene.accelerationImpulse p delta (linvel cart)) ++ [brake]
  /\ Vec3.x brake == - (Scene.deceleration p * delta * Scene.cartWeight p)
  /\ (Vec3.x (linvel cart) < Scene.maxSpeed p ->
      Scene.impulses r = [push; brake]
      /\ Scene.netImpulseX (Scene.impulses r)
         == (Scene.acceleration p - Scene.deceleration p)
            * delta * Scene.cartWeight p)
  /\ (Qabs (Vec3.x (linvel cart)) < Scene.maxSpeed p ->
      Scene.impulses r = [push; brake]
      /\ Scene.netImpulseX (Scene.impulses r)
         == (Scene.acceleration p - Scene.deceleration p)
            * delta * Scene.cartWeight p)
  /\ Scene.cartRef (fst (Scene.after r))
     = Some (applyImpulse brake true pushed)
  /\ (~ mass cart == 0 ->
      exists cart',
        Scene.cartRef (fst (Scene.after r)) = Some cart'
        /\ Vec3.x (linvel cart')
           == Vec3.x (linvel pushed)
              - Scene.deceleration p * delta * Scene.cartWeight p / mass cart
        /\ (Vec3.x (linvel cart) < Scene.maxSpeed p ->
            cart' = applyImpulse brake true (applyImpulse push true cart)
            /\ Vec3.x (linvel cart')
               == Vec3.x (linvel cart)
                  + (Scene.acceleration p - Scene.deceleration p)
                    * delta * Scene.cartWeight p / mass cart)
        /\ (Scene.maxSpeed p <= Vec3.x (linvel cart) ->
            cart' = applyImpulse brake true cart
            /\ Vec3.x (linvel cart')
               == Vec3.x (linvel cart)
                  - Scene.deceleration p * delta * Scene.cartWeight p
                    / mass cart)).
Proof.
  intros Hrun Hcart Hx r push brake pushed.
  destruct (frame_anatomy p delta s w cart Hrun Hcart) as (Himp & Hc' & _).
  fold r in Himp, Hc'.
  rewrite (decelerationImpulse_beyond p delta _ Hx) in Himp, Hc'.
  cbn [Scene.applyTo] in Hc'. fold brake pushed in Hc'.
  assert (Hboth : Vec3.x (linvel cart) < Scene.maxSpeed p ->
            Scene.impulses r = [push; brake]
            /\ Scene.netImpulseX (Scene.impulses r)
               == (Scene.acceleration p - Scene.deceleration p)
                  * delta * Scene.cartWeight p).
  { intro Hlt.
    rewrite (accelerationImpulse_below p delta _ Hlt) in Himp.
    rewrite Himp. split; [reflexivity|]. cbn. ring. }
  split; [exact Himp|]. split; [cbn; ring|]. split; [exact Hboth|].
  split.
  { intro Habs. apply Hboth.
    apply Qle_lt_trans with (Qabs (Vec3.x (linvel cart)));
      [apply Qle_Qabs | exact Habs]. }
  split; [exact Hc'|].
  intro Hm. eexists. split; [exact Hc'|].
  assert (Hmp : mass pushed = mass cart).
  { subst pushed. destruct (Scene.accelerationImpulse p delta (linvel cart));
      reflexivity. }
  split; [|split].
  - cbn. rewrite Hmp. field. exact Hm.
  - intro Hlt. subst pushed.
    rewrite (accelerationImpulse_below p delta _ Hlt).
    split; [reflexivity|]. cbn. field. exact Hm.
  - intro Hge. subst pushed.
    rewrite (accelerationImpulse_above p delta _ Hge).
    split; [reflexivity|]. cbn. field. exact Hm.
Qed.

(** A cart rolling back at 2 m/s beyond the target, of mass 0.816 under
    cartWeight 10: both impulses are applied and its velocity changes by
    (5 - 3) * (1/60) * 10 / 0.816. *)
Lemma reverse_impulse_witness :
  let p := Samples.props App.defaults in
  let cart := Samples.cartAt 100 (-2) in
  let r := Scene.useFrame p (1 / 60)
             (Samples.midRun cart (Samples.boxOn 100), Samples.windowAt 5000) in
  Scene.impulses r
  = [Vec3.mk (5 * (1 / 60) * 10) 0 0; Vec3.mk ((- 3) * (1 / 60) * 10) 0 0]
  /\ Scene.netImpulseX (Scene.impulses r) == (5 - 3) * (1 / 60) * 10
  /\ exists cart',
       Scene.cartRef (fst (Scene.after r)) = Some cart'
       /\ Vec3.x (linvel cart') == -2 + (5 - 3) * (1 / 60) * 10 / 0.816.
Proof.
  intros p cart r.
  destruct (reverse_impulse p (1 / 60)
              (Samples.midRun cart (Samples.boxOn 100)) (Samples.windowAt 5000)
              cart eq_refl eq_refl) as (_ & _ & _ & Habs & _ & Hvel).
  - discriminate.
  - destruct Habs as [Himp Hnet]; [reflexivity|].
    split; [exact Himp|]. split; [exact Hnet|].
    destruct Hvel as (cart' & Hc & _ & Hboth & _); [discriminate|].
    exists cart'. split; [exact Hc|].
    apply (Qeq_trans _ _ _ (proj2 (Hboth eq_refl))). vm_compute. reflexivity.
Defined.

(** ** Stabilization of the box *)

Lemma isBoxAboveCart_true (b c : Vec3.t) :
  Scene.isBoxAboveCart b c = true
  <-> Qabs (Vec3.x b - Vec3.x c) < 0.9 /\ Qabs (Vec3.z b - Vec3.z c) < 0.4.
Proof.
  unfold Scene.isBoxAboveCart. rewrite andb_true_iff, !ltb_lt. reflexivity.
Qed.

Lemma isBoxAboveCart_false (b c : Vec3.t) :
  Scene.isBoxAboveCart b c = false
  <-> 0.9 <= Qabs (Vec3.x b - Vec3.x c) \/ 0.4 <= Qabs (Vec3.z b - Vec3.z c).
Proof.
  unfold Scene.isBoxAboveCart. rewrite andb_false_iff, !ltb_ge. reflexivity.
Qed.

Lemma isTilted_true (q : Quat.t) :
  Scene.isTilted q = true
  <-> 0.01 < Qabs (Quat.x q) \/ 0.01 < Qabs (Quat.z q).
Proof.
  unfold Scene.isTilted. rewrite orb_true_iff, !gtb_lt. reflexivity.
Qed.

Lemma isTilted_false (q : Quat.t) :
  Scene.isTilted q = false
  <-> Qabs (Quat.x q) <= 0.01 /\ Qabs (Quat.z q) <= 0.01.
Proof.
  unfold Scene.isTilted. rewrite orb_false_iff, !gtb_le. reflexivity.
Qed.

(** What [stabilizeBox] does to a box within tolerance. *)
Lemma stabilizeBox_within (c : Vec3.t) (box : RigidBody) :
  Scene.isBoxAboveCart (translation box) c = true ->
  translation (Scene.stabilizeBox c box) = translation box
  /\ angvel (Scene.stabilizeBox c box) = angvel box
  /\ sleeping (Scene.stabilizeBox c box) = sleeping box
  /\ rotation (Scene.stabilizeBox c box)
     = (if Scene.isTilted (rotation box)
        then Quat.mk 0 (Quat.y (rotation box)) 0 (Quat.w (rotation box))
        else rotation box)
  /\ linvel (Scene.stabilizeBox c box)
     = (if Num.gtb (Qabs (Vec3.y (linvel box))) 1
        then Vec3.mk (Vec3.x (linvel box)) (Vec3.y (linvel box) * 0.7)
                     (Vec3.z (linvel box))
        else linvel box).
Proof.
  intro Hin. unfold Scene.stabilizeBox. rewrite Hin.
  destruct (Scene.isTilted (rotation box)); cbn [linvel setRotation];
    destruct (Num.gtb (Qabs (Vec3.y (linvel box))) 1); repeat split.
Qed.

(** C6.  In a frame that runs outside the post-reset lock, a box whose
    offset from the cart reaches the tolerance along x (0.9) or along z (0.4)
    is left exactly as it was.  A box within both tolerances keeps its
    position and angular velocity; its rotation becomes (0, y, 0, w) when
    |x| or |z| of the rotation exceeds 0.01 and is kept otherwise; its linear
    velocity becomes (vx, 0.7 * vy, vz) when |vy| exceeds 1 and is kept
    otherwise. *)
Theorem free_regime_stabilization (p : Scene.Props) (delta : Q)
    (s : Scene.State) (w : Window) (cart box : RigidBody) :
  Scene.running p s = true ->
  Scene.resetJustApplied (Scene.flags s) = false ->
  Scene.cartRef s = Some cart ->
  Scene.boxRef s = Some box ->
  let box' := Scene.boxRef (fst (Scene.after (Scene.useFrame p delta (s, w)))) in
  let dx := Qabs (Vec3.x (translation box) - Vec3.x (translation cart)) in
  let dz := Qabs (Vec3.z (translation box) - Vec3.z (translation cart)) in
  let q := rotation box in
  let v := linvel box in
  (0.9 <= dx \/ 0.4 <= dz -> box' = Some box)
  /\ (dx < 0.9 -> dz < 0.4 ->
      exists b,
        box' = Some b
        /\ translation b = translation box
        /\ angvel b = angvel box
        /\ (0.01 < Qabs (Quat.x q) \/ 0.01 < Qabs (Quat.z q) ->
            rotation b = Quat.mk 0 (Quat.y q) 0 (Quat.w q))
        /\ (Qabs (Quat.x q) <= 0.01 -> Qabs (Quat.z q) <= 0.01 ->
            rotation b = q)
        /\ (1 < Qabs (Vec3.y v) ->
            linvel b = Vec3.mk (Vec3.x v) (Vec3.y v * 0.7) (Vec3.z v)
            /\ Vec3.y (linvel b) == 0.7 * Vec3.y v)
        /\ (Qabs (Vec3.y v) <= 1 -> linvel b = v)).
Proof.
  intros Hrun Hfree Hcart Hbox box' dx dz q v.
  destruct (frame_anatomy p delta s w cart Hrun Hcart) as (_ & _ & Hb & _).
  rewrite Hbox, Hfree in Hb. cbn [option_map] in Hb.
  subst box' dx dz q v. rewrite Hb. split.
  - intro Hout. apply isBoxAboveCart_false in Hout.
    unfold Scene.stabilizeBox. rewrite Hout. reflexivity.
  - intros Hx Hz.
    assert (Hin : Scene.isBoxAboveCart (translation box) (translation cart) = true)
      by (apply isBoxAboveCart_true; split; assumption).
    destruct (stabilizeBox_within _ _ Hin) as (Ht & Ha & _ & Hr & Hv).
    eexists. split; [reflexivity|].
    split; [exact Ht|]. split; [exact Ha|].
    split; [|split; [|split]].
    + intro Htilt. apply isTilted_true in Htilt.
      rewrite Hr, Htilt. reflexivity.
    + intros Hqx Hqz.
      assert (Hflat : Scene.isTilted (rotation box) = false)
        by (apply isTilted_false; split; assumption).
      rewrite Hr, Hflat. reflexivity.
    + intro Hfast. apply gtb_lt in Hfast.
      rewrite Hv, Hfast. split; [reflexivity|]. cbn. ring.
    + intro Hslow. apply gtb_le in Hslow.
      rewrite Hv, Hslow. reflexivity.
Qed.

(** A box thrown 1.2 ahead of the cart, tilted and bouncing, is not touched;
    the same box 0.3 ahead of the cart is straightened and damped. *)
Lemma free_regime_stabilization_witness :
  let p := Samples.props App.defaults in
  let cart := Samples.cartAt 20 4 in
  let q := Quat.mk 0.6 0 0 0.8 in
  let far := Samples.body (Vec3.mk 21.2 0.8 0) (Vec3.mk 4 2 0) q in
  let near := Samples.body (Vec3.mk 20.3 0.8 0) (Vec3.mk 4 2 0) q in
  Scene.boxRef (fst (Scene.after (Scene.useFrame p (1 / 60)
                   (Samples.midRun cart far, Samples.windowAt 5000))))
  = Some far
  /\ exists b,
       Scene.boxRef (fst (Scene.after (Scene.useFrame p (1 / 60)
                        (Samples.midRun cart near, Samples.windowAt 5000))))
       = Some b
       /\ translation b = translation near
       /\ rotation b = Quat.mk 0 0 0 0.8
       /\ linvel b = Vec3.mk 4 (2 * 0.7) 0.
Proof.
  intros p cart q far near. split.
  - apply (free_regime_stabilization p (1 / 60) (Samples.midRun cart far)
             (Samples.windowAt 5000) cart far eq_refl eq_refl eq_refl eq_refl).
    left. discriminate.
  - destruct (free_regime_stabilization p (1 / 60) (Samples.midRun cart near)
                (Samples.windowAt 5000) cart near
                eq_refl eq_refl eq_refl eq_refl) as [_ Hin].
    destruct Hin as (b & Hb & Ht & _ & Hr & _ & Hv & _);
      [reflexivity | reflexivity |].
    exists b. split; [exact Hb|]. split; [exact Ht|]. split.
    + apply Hr. left. reflexivity.
    + apply Hv. reflexivity.
Defined.

Lemma square_pos_of_abs (a e : Q) : 0 <= e -> e < Qabs a -> 0 < a * a.
Proof.
  intros He. apply Qabs_case; intros Ha Hlt; nra.
Qed.

(** C10.  The tilt correction writes (0, y, 0, w) with the box's current y
    and w: for a box within tolerance whose rotation is a unit quaternion
    with |x| or |z| above 0.01, the quaternion written by the frame has
    squared norm y*y + w*w, which is strictly below 1 (so its norm is below
    1): the rotation handed to the engine is not a unit quaternion. *)
Theorem tilt_correction_not_renormalized (p : Scene.Props) (delta : Q)
    (s : Scene.State) (w : Window) (cart box : RigidBody) :
  Scene.running p s = true ->
  Scene.resetJustApplied (Scene.flags s) = false ->
  Scene.cartRef s = Some cart ->
  Scene.boxRef s = Some box ->
  Qabs (Vec3.x (translation box) - Vec3.x (translation cart)) < 0.9 ->
  Qabs (Vec3.z (translation box) - Vec3.z (translation cart)) < 0.4 ->
  Quat.normSq (rotation box) == 1 ->
  0.01 < Qabs (Quat.x (rotation box)) \/ 0.01 < Qabs (Quat.z (rotation box)) ->
  exists b,
    Scene.boxRef (fst (Scene.after (Scene.useFrame p delta (s, w)))) = Some b
    /\ rotation b
       = Quat.mk 0 (Quat.y (rotation box)) 0 (Quat.w (rotation box))
    /\ Quat.normSq (rotation b)
       == Quat.y (rotation box) * Quat.y (rotation box)
          + Quat.w (rotation box) * Quat.w (rotation box)
    /\ Quat.normSq (rotation b) < 1.
Proof.
  intros Hrun Hfree Hcart Hbox Hx Hz Hunit Htilt.
  destruct (frame_anatomy p delta s w cart Hrun Hcart) as (_ & _ & Hb & _).
  rewrite Hbox, Hfree in Hb. cbn [option_map] in Hb.
  assert (Hin : Scene.isBoxAboveCart (translation box) (translation cart) = true)
    by (apply isBoxAboveCart_true; split; assumption).
  destruct (stabilizeBox_within _ _ Hin) as (_ & _ & _ & Hr & _).
  pose proof Htilt as Htilt'. apply isTilted_true in Htilt'.
  rewrite Htilt' in Hr.
  eexists. split; [exact Hb|].
  rewrite Hr. split; [reflexivity|].
  unfold Quat.normSq in *. cbn [Quat.x Quat.y Quat.z Quat.w].
  split; [ring|].
  assert (Hpos : 0 < Quat.x (rotation box) * Quat.x (rotation box)
                     + Quat.z (rotation box) * Quat.z (rotation box)).
  { assert (Hxx : 0 <= Quat.x (rotation box) * Quat.x (rotation box)) by nra.
    assert (Hzz : 0 <= Quat.z (rotation box) * Quat.z (rotation box)) by nra.
    destruct Htilt as [Ht | Ht];
      apply square_pos_of_abs in Ht; try discriminate; lra. }
  lra.
Qed.

(** A box rotated about the x axis (unit quaternion (0.6, 0, 0, 0.8)) gets
    the rotation (0, 0, 0, 0.8), of squared norm 0.64. *)
Lemma tilt_correction_not_renormalized_witness :
  let p := Samples.props App.defaults in
  let cart := Samples.cartAt 20 4 in
  let near := Samples.body (Vec3.mk 20.3 0.8 0) (Vec3.mk 4 0 0)
                           (Quat.mk 0.6 0 0 0.8) in
  exists b,
    Scene.boxRef (fst (Scene.after (Scene.useFrame p (1 / 60)
                     (Samples.midRun cart near, Samples.windowAt 5000))))
    = Some b
    /\ rotation b = Quat.mk 0 0 0 0.8
    /\ Quat.normSq (rotation b) == 0 * 0 + 0.8 * 0.8
    /\ Quat.normSq (rotation b) < 1.
Proof.
  intros p cart near.
  apply (tilt_correction_not_renormalized p (1 / 60)
           (Samples.midRun cart near) (Samples.windowAt 5000) cart near
           eq_refl eq_refl eq_refl eq_refl);
    [reflexivity | reflexivity | reflexivity | left; reflexivity].
Defined.

(** ** Camera follow *)

(** What the effect captures when a run starts. *)
Lemma run_start_captures (p : Scene.Props) (s : Scene.State) (w : Window)
    (cart : RigidBody) :
  Scene.prevIsSimulating (Scene.flags s) = false ->
  Scene.isSimulating p = true ->
  Scene.cartRef s = Some cart ->
  let s' := fst (Scene.isSimulatingEffect p (s, w)) in
  let cam := Scene.position (Scene.camera s) in
  Scene.simulationStartCameraPosition (Scene.follow s') = Some cam
  /\ Scene.cameraOffset (Scene.follow s')
     = Some (Vec3.mk (Vec3.x cam - Vec3.x (translation cart))
                     (Vec3.y cam - Vec3.y (translation cart))
                     (Vec3.z cam - Vec3.z (translation cart)))
  /\ Scene.simulationStartCameraDirection (Scene.follow s')
     = Some (Scene.orientation (Scene.camera s))
  /\ Scene.initialCartPosition (Scene.telemetry s') = Some (translation cart)
  /\ Scene.simulationStartTime (Scene.telemetry s') = Some (nowSeconds w).
Proof.
  intros Hprev Hsim Hcart.
  unfold Scene.isSimulatingEffect. rewrite Hprev, Hsim, Hcart. cbn.
  repeat split. destruct (translation cart); reflexivity.
Qed.

(** C8, as amended.  In a frame that runs (simulating, physics enabled, cart
    handle available): if the three follow refs captured at the start of the
    run are still set, the camera's x becomes old + (target - old) * 0.1 with
    target = cart x + captured offset x, that is old + 0.1 * (target - old),
    its y and z are those of the camera position captured at the start of
    the run, and the camera is turned to look at the cart's current
    position; if any of the three refs is null (the 100 ms callback of a
    reset clears them), the frame leaves the camera as it is. *)
Theorem camera_follow (p : Scene.Props) (delta : Q) (s : Scene.State)
    (w : Window) (cart : RigidBody) :
  Scene.running p s = true ->
  Scene.cartRef s = Some cart ->
  let cam' := Scene.camera (fst (Scene.after (Scene.useFrame p delta (s, w)))) in
  let oldX := Vec3.x (Scene.position (Scene.camera s)) in
  (forall (startCamera offset : Vec3.t) (direction : Scene.Orientation),
     Scene.simulationStartCameraPosition (Scene.follow s) = Some startCamera ->
     Scene.cameraOffset (Scene.follow s) = Some offset ->
     Scene.simulationStartCameraDirection (Scene.follow s) = Some direction ->
     let target := Vec3.x (translation cart) + Vec3.x offset in
     Vec3.x (Scene.position cam') = oldX + (target - oldX) * 0.1
     /\ Vec3.x (Scene.position cam') == oldX + 0.1 * (target - oldX)
     /\ Vec3.y (Scene.position cam') = Vec3.y startCamera
     /\ Vec3.z (Scene.position cam') = Vec3.z startCamera
     /\ Scene.orientation cam' = Scene.LookingAt (translation cart))
  /\ (Scene.simulationStartCameraPosition (Scene.follow s) = None
      \/ Scene.cameraOffset (Scene.follow s) = None
      \/ Scene.simulationStartCameraDirection (Scene.follow s) = None ->
      cam' = Scene.camera s).
Proof.
  intros Hrun Hcart cam' oldX.
  destruct (frame_anatomy p delta s w cart Hrun Hcart)
    as (_ & _ & _ & Hcam & _).
  destruct (running_inv _ _ Hrun) as [Hsim _].
  subst cam' oldX. rewrite Hcam. unfold Scene.followCamera. rewrite Hsim.
  split.
  - intros startCamera offset direction Hstart Hoff Hdir. cbv zeta.
    rewrite Hstart, Hoff, Hdir.
    cbn [Scene.camera Scene.set_camera Scene.position Scene.orientation
         Vec3.x Vec3.y Vec3.z].
    repeat split.
    + ring.
    + destruct (translation cart); reflexivity.
  - intros [H | [H | H]]; rewrite H;
      repeat match goal with
             | |- context [match ?o with Some _ => _ | None => _ end] =>
                 destruct o
             end; reflexivity.
Qed.

Lemma camera_follow_witness :
  let p := Samples.props App.defaults in
  let cart := Samples.cartAt 20 4 in
  let s := Samples.midRun cart (Samples.boxOn 20) in
  let s0 := Scene.set_follow Scene.noFollowRefs s in
  let cam' := Scene.camera (fst (Scene.after (Scene.useFrame p (1 / 60)
                              (s, Samples.windowAt 5000)))) in
  (Vec3.x (Scene.position cam') == 10 + 0.1 * ((20 + 10) - 10)
   /\ Vec3.y (Scene.position cam') = 10
   /\ Vec3.z (Scene.position cam') = 10
   /\ Scene.orientation cam' = Scene.LookingAt (translation cart))
  /\ Scene.camera (fst (Scene.after (Scene.useFrame p (1 / 60)
                          (s0, Samples.windowAt 5000))))
     = Scene.camera s0.
Proof.
  intros p cart s s0 cam'. split.
  - destruct (camera_follow p (1 / 60) s (Samples.windowAt 5000) cart
                eq_refl eq_refl) as [Hset _].
    destruct (Hset (Vec3.mk 10 10 10) (Vec3.mk 10 (10 - CART_CENTER_Y) 10)
                Scene.InitialOrientation eq_refl eq_refl eq_refl)
      as (_ & Hx & Hy & Hz & Ho).
    repeat split; assumption.
  - destruct (camera_follow p (1 / 60) s0 (Samples.windowAt 5000) cart
                eq_refl eq_refl) as [_ Hnull].
    apply Hnull. left. reflexivity.
Defined.

(** C8 as stated fails.  Start, Reset, and Start again 50 ms later: the
    second run captures the camera offset 10 - 5 = 5 on entry, but the first
    reset's 100 ms callback then clears the follow refs.  Once physics is
    back on, the page is running with the cart at x = 3, and a frame leaves
    the camera at x = 10, not turned toward the cart, where the claim puts
    it at 10 + 0.1 * ((3 + 5) - 10). *)
Lemma camera_left_behind :
  let entry := World.run [World.ClickStart;
                          World.PhysicsStep (Samples.cartAt 5 2) (Samples.boxOn 5);
                          World.ClickReset; World.Elapse 50; World.ClickStart]
                         (World.mount App.defaults 1000) in
  let w := World.run [World.Elapse 1100;
                      World.PhysicsStep (Samples.cartAt 3 1) (Samples.boxOn 3)]
                     entry in
  let w' := World.step w (World.Frame (1 / 60)) in
  (exists offset,
     Scene.cameraOffset (Scene.follow (World.scene entry)) = Some offset
     /\ Vec3.x offset == 5)
  /\ App.isSimulating (World.app w) = true
  /\ Scene.running (App.sceneProps (World.app w)) (World.scene w) = true
  /\ Scene.cartRef (World.scene w) = Some (Samples.cartAt 3 1)
  /\ Scene.camera (World.scene w')
     = {| Scene.position := Vec3.mk 10 10 10;
          Scene.orientation := Scene.InitialOrientation |}
  /\ ~ (Vec3.x (Scene.position (Scene.camera (World.scene w')))
        == 10 + 0.1 * ((3 + 5) - 10)).
Proof.
  cbv zeta. split.
  - eexists. split; [vm_compute; reflexivity | reflexivity].
  - split; [vm_compute; reflexivity|].
    split; [vm_compute; reflexivity|].
    split; [vm_compute; reflexivity|].
    split; [vm_compute; reflexivity|].
    vm_compute. discriminate.
Qed.

(** ** The timer queue *)

Section TimerQueue.

Lemma NoDup_map_filter {A B : Type} (f : A -> B) (g : A -> bool) (l : list A) :
  NoDup (map f l) -> NoDup (map f (filter g l)).
Proof.
  induction l as [|a l IH]; cbn; intro H; [constructor|].
  inversion H as [|? ? Hnotin Hnd]; subst.
  destruct (g a); cbn; [constructor|]; auto.
  intro Hin. apply Hnotin.
  apply in_map_iff in Hin. destruct Hin as (b & Hb & Hin).
  apply filter_In in Hin. apply in_map_iff. exists b. tauto.
Qed.

Lemma NoDup_map_eq {A B : Type} (f : A -> B) (l : list A) (a b : A) :
  NoDup (map f l) -> In a l -> In b l -> f a = f b -> a = b.
Proof.
  induction l as [|c l IH]; cbn; intros Hnd Ha Hb Hf; [contradiction|].
  inversion Hnd as [|? ? Hnotin Hnd']; subst.
  destruct Ha as [Ha | Ha], Hb as [Hb | Hb]; subst; auto.
  - exfalso. apply Hnotin. rewrite Hf. apply in_map. exact Hb.
  - exfalso. apply Hnotin. rewrite <- Hf. apply in_map. exact Ha.
Qed.

Lemma NoDup_snoc {A : Type} (l : list A) (a : A) :
  NoDup l -> ~ In a l -> NoDup (l ++ [a]).
Proof.
  intros Hnd Hnotin.
  pose proof (Add_app a l []) as Hadd. rewrite app_nil_r in Hadd.
  apply (NoDup_Add Hadd). split; assumption.
Qed.

Lemma filter_twice {A : Type} (f g : A -> bool) (l : list A) :
  filter f (filter g l) = filter (fun x => g x && f x) l.
Proof.
  induction l as [|a l IH]; [reflexivity|].
  cbn. destruct (g a); cbn; [destruct (f a)|]; rewrite IH; reflexivity.
Qed.

Variable win : Window.
Variable ref : option positive.
Hypothesis Hq : World.queueOk win ref.

(** Setting a timer that is not a re-enable timer. *)
Lemma queueOk_setTimeout (a : TimerAction) (delay : Z) :
  a <> ReenableCallback ->
  World.queueOk (snd (setTimeout a delay win)) ref.
Proof.
  intro Ha. destruct Hq as [Hnd Hfresh Href].
  constructor; cbn [setTimeout snd pending nextTimerId].
  - rewrite map_app. cbn. apply NoDup_snoc; [exact Hnd|].
    intro Hin. apply in_map_iff in Hin. destruct Hin as (tm & Hid & Hin).
    rewrite Forall_forall in Hfresh. specialize (Hfresh tm Hin). lia.
  - apply Forall_app. split.
    + eapply Forall_impl; [|exact Hfresh]. cbn. intros; lia.
    + constructor; [cbn; lia | constructor].
  - rewrite filter_app, map_app. cbn.
    replace (World.isReenableTimer _) with false
      by (unfold World.isReenableTimer; cbn; destruct a; congruence).
    cbn. rewrite app_nil_r. exact Href.
Qed.

(** Every pending re-enable timer carries the identifier in the ref. *)
Lemma queueOk_reenable_id (tm : Timer) :
  In tm (pending win) -> World.isReenableTimer tm = true ->
  ref = Some (tid tm).
Proof.
  intros Hin Hre. destruct Hq as [_ _ Href].
  assert (H : In (tid tm) (map tid (filter World.isReenableTimer (pending win)))).
  { apply in_map. apply filter_In. split; assumption. }
  rewrite Href in H. destruct ref as [id|]; cbn in H; [|contradiction].
  destruct H as [H | []]. congruence.
Qed.

(** A timer other than a re-enable timer leaves the queue. *)
Lemma queueOk_fire_other (tm : Timer) :
  In tm (pending win) -> World.isReenableTimer tm = false ->
  World.queueOk (clearTimeout (tid tm) win) ref.
Proof.
  intros Hin Hre. destruct Hq as [Hnd Hfresh Href].
  constructor; cbn [clearTimeout pending nextTimerId].
  - apply NoDup_map_filter. exact Hnd.
  - apply Forall_forall. intros x Hx. apply filter_In in Hx.
    rewrite Forall_forall in Hfresh. apply Hfresh. tauto.
  - rewrite <- Href. f_equal.
    rewrite filter_twice. apply filter_ext_in. intros x Hx.
    destruct (World.isReenableTimer x) eqn:Ex;
      [|apply andb_false_r].
    rewrite andb_true_r. apply negb_true_iff.
    destruct (Pos.eqb_spec (tid x) (tid tm)) as [E | E]; [|reflexivity].
    assert (x = tm) by (apply (NoDup_map_eq tid (pending win)); assumption).
    congruence.
Qed.

(** Clearing the timer recorded in the ref leaves no re-enable timer. *)
Lemma queueOk_clear_ref :
  World.queueOk
    (match ref with Some id => clearTimeout id win | None => win end) None.
Proof.
  destruct Hq as [Hnd Hfresh Href].
  destruct ref as [id|]; [|constructor; assumption].
  constructor; cbn [clearTimeout pending nextTimerId].
  - apply NoDup_map_filter. exact Hnd.
  - apply Forall_forall. intros x Hx. apply filter_In in Hx.
    rewrite Forall_forall in Hfresh. apply Hfresh. tauto.
  - cbn [World.refTimers].
    destruct (filter World.isReenableTimer
                (filter (fun t => negb (tid t =? id)%positive) (pending win)))
      as [|x l] eqn:E; [reflexivity|].
    exfalso.
    assert (Hx : In x (x :: l)) by (left; reflexivity).
    rewrite <- E in Hx. apply filter_In in Hx. destruct Hx as [Hx Hre].
    apply filter_In in Hx. destruct Hx as [Hx Hne].
    assert (H : In (tid x) (map tid (filter World.isReenableTimer (pending win)))).
    { apply in_map. apply filter_In. split; assumption. }
    rewrite Href in H. cbn in H. destruct H as [H | []].
    subst id. rewrite Pos.eqb_refl in Hne. discriminate.
Qed.

End TimerQueue.

(** Setting the re-enable timer on a queue that holds none. *)
Lemma queueOk_set_reenable (win : Window) (delay : Z) :
  World.queueOk win None ->
  World.queueOk (snd (setTimeout ReenableCallback delay win))
                (Some (nextTimerId win))
  /\ filter World.isReenableTimer
       (pending (snd (setTimeout ReenableCallback delay win)))
     = [ {| tid := nextTimerId win; due := (clock win + delay)%Z;
            action := ReenableCallback |} ].
Proof.
  intros [Hnd Hfresh Href]. cbn [World.refTimers] in Href.
  assert (Hnone : filter World.isReenableTimer (pending win) = []).
  { destruct (filter World.isReenableTimer (pending win)); [reflexivity|].
    discriminate. }
  split; [constructor|]; cbn [setTimeout snd pending nextTimerId].
  - rewrite map_app. cbn. apply NoDup_snoc; [exact Hnd|].
    intro Hin. apply in_map_iff in Hin. destruct Hin as (tm & Hid & Hin).
    rewrite Forall_forall in Hfresh. specialize (Hfresh tm Hin). lia.
  - apply Forall_app. split.
    + eapply Forall_impl; [|exact Hfresh]. cbn. intros; lia.
    + constructor; [cbn; lia | constructor].
  - rewrite filter_app, map_app, Hnone. reflexivity.
  - rewrite filter_app, Hnone. reflexivity.
Qed.

(** ** Invariants of the running page *)

Definition sceneOk (s : Scene.State) (win : Window) : Prop :=
  World.queueOk win (Scene.resetTimerRef (Scene.flags s))
  /\ forall t0,
       Scene.simulationStartTime (Scene.telemetry s) = Some t0 ->
       t0 <= nowSeconds win.

Lemma ok_intro (w : World.t) :
  sceneOk (World.scene w) (World.window w) ->
  Forall World.entryOk (World.history w) ->
  World.ok w.
Proof. intros [Hq Hs] Hh. constructor; assumption. Qed.

Lemma ok_scene (w : World.t) :
  World.ok w -> sceneOk (World.scene w) (World.window w).
Proof. intros [Hq Hs _]. split; assumption. Qed.

Lemma resetSimulation_frame (s : Scene.State) :
  Scene.flags (Scene.resetSimulation s) = Scene.flags s
  /\ Scene.telemetry (Scene.resetSimulation s) = Scene.telemetry s.
Proof.
  unfold Scene.resetSimulation.
  destruct (Scene.cartRef s); [|split; reflexivity].
  cbn. destruct (Scene.boxRef s); split; reflexivity.
Qed.

Lemma effect_ok (p : Scene.Props) (s : Scene.State) (win : Window) :
  sceneOk s win ->
  sceneOk (fst (Scene.isSimulatingEffect p (s, win)))
          (snd (Scene.isSimulatingEffect p (s, win))).
Proof.
  intros [Hq Hs]. unfold Scene.isSimulatingEffect.
  destruct (Scene.prevIsSimulating (Scene.flags s)),
           (Scene.isSimulating p); cbn [negb andb fst snd].
  - split; [exact Hq | exact Hs].
  - split.
    + apply (queueOk_setTimeout win _ Hq). discriminate.
    + cbn. intros t0 Ht0. discriminate.
  - destruct (Scene.cartRef s); split; try assumption.
    cbn. intros t0 Ht0. injection Ht0 as <-. apply Qle_refl.
  - split; [exact Hq | exact Hs].
Qed.

Lemma rerender_ok (w : World.t) : World.ok w -> World.ok (World.rerender w).
Proof.
  intro Hok. unfold World.rerender.
  destruct (Bool.eqb _ _); [exact Hok|].
  apply ok_intro; cbn [World.scene World.window World.history].
  - apply effect_ok. apply ok_scene. exact Hok.
  - destruct Hok as [_ _ Hh].
    destruct (Scene.isSimulating _); [exact Hh|].
    unfold World.record. apply Forall_app. split; [exact Hh|].
    constructor; [exact I | constructor].
Qed.

Lemma notify_ok (w : World.t) (c : Scene.Call) :
  World.callOk c -> World.ok w -> World.ok (World.notify w c).
Proof.
  intros Hc Hok. unfold World.notify. apply rerender_ok.
  destruct Hok as [Hq Hs Hh].
  constructor; cbn [World.scene World.window World.history]; try assumption.
  unfold World.record. apply Forall_app. split; [exact Hh|].
  constructor; [exact Hc | constructor].
Qed.

Lemma deliver_ok (cs : list Scene.Call) (w : World.t) :
  Forall World.callOk cs -> World.ok w -> World.ok (World.deliver cs w).
Proof.
  unfold World.deliver. revert w.
  induction cs as [|c cs IH]; intros w Hcs Hok; [exact Hok|].
  inversion Hcs; subst. cbn. apply IH; [assumption|].
  apply notify_ok; assumption.
Qed.

Lemma click_ok (disabled : App.State -> bool) (handler : App.State -> App.State)
    (w : World.t) :
  World.ok w -> World.ok (World.click disabled handler w).
Proof.
  intro Hok. unfold World.click. destruct (disabled _); [exact Hok|].
  apply rerender_ok. destruct Hok as [Hq Hs Hh]. constructor; assumption.
Qed.

Lemma telemetryCalls_ok (p : Scene.Props) (s : Scene.State) (win : Window) :
  (forall t0, Scene.simulationStartTime (Scene.telemetry s) = Some t0 ->
              t0 <= nowSeconds win) ->
  Forall World.callOk (Scene.telemetryCalls p s win).
Proof.
  intro Hs. unfold Scene.telemetryCalls.
  destruct (Scene.isSimulating p); [|constructor].
  destruct (Scene.cartRef s) as [cart|]; [|constructor].
  destruct (Scene.onSimulationUpdate p); [|constructor].
  destruct (Scene.simulationStartTime (Scene.telemetry s)) as [t0|];
    [|constructor].
  destruct (Scene.initialCartPosition (Scene.telemetry s)) as [x0|];
    [|constructor].
  destruct (Num.truthy t0); [|constructor].
  constructor.
  - unfold World.callOk. specialize (Hs t0 eq_refl).
    split; [lra|]. split; apply Qabs_nonneg.
  - destruct (_ && _); repeat constructor.
Qed.

Lemma scheduleCompletion_ok (p : Scene.Props) (c v : Vec3.t)
    (s : Scene.State) (win : Window) :
  sceneOk s win -> sceneOk s (Scene.scheduleCompletion p c v win).
Proof.
  intros [Hq Hs]. unfold Scene.scheduleCompletion.
  destruct (Scene.stoppedBeyondTarget p c v); [|split; assumption].
  split; [|exact Hs].
  apply (queueOk_setTimeout win _ Hq). discriminate.
Qed.

Lemma useFrame_ok (p : Scene.Props) (delta : Q) (s : Scene.State)
    (win : Window) :
  sceneOk s win ->
  let r := Scene.useFrame p delta (s, win) in
  sceneOk (fst (Scene.after r)) (snd (Scene.after r))
  /\ Forall World.callOk (Scene.calls r).
Proof.
  intros Hok r.
  destruct (Scene.running p s) eqn:Hrun.
  - destruct (Scene.cartRef s) as [cart|] eqn:Hcart.
    + destruct (frame_anatomy p delta s win cart Hrun Hcart)
        as (_ & _ & _ & _ & Hf & Ht & Hw & Hcalls).
      fold r in Hf, Ht, Hw, Hcalls.
      assert (Hok' : sceneOk (fst (Scene.after r)) (snd (Scene.after r))).
      { rewrite Hw. unfold sceneOk. rewrite Hf, Ht.
        apply scheduleCompletion_ok. exact Hok. }
      split; [exact Hok'|].
      rewrite Hcalls. apply telemetryCalls_ok. apply Hok'.
    + destruct (running_inv _ _ Hrun) as [Hsim Hphys].
      subst r. unfold Scene.useFrame. rewrite Hsim, Hphys, Hcart. cbn.
      split; [exact Hok|]. apply telemetryCalls_ok. apply Hok.
  - subst r. unfold Scene.useFrame. unfold Scene.running in Hrun.
    destruct (Scene.isSimulating p), (Scene.physicsEnabled (Scene.flags s));
      try discriminate; cbn; (split; [exact Hok | constructor]).
Qed.

Lemma resetCallback_anatomy (s : Scene.State) (win : Window) :
  let ref := Scene.resetTimerRef (Scene.flags s) in
  let cleared := match ref with
                 | Some id => clearTimeout id win
                 | None => win
                 end in
  snd (Scene.resetCallback (s, win))
  = snd (setTimeout ReenableCallback 1000 cleared)
  /\ Scene.resetTimerRef (Scene.flags (fst (Scene.resetCallback (s, win))))
     = Some (nextTimerId cleared)
  /\ Scene.telemetry (fst (Scene.resetCallback (s, win))) = Scene.telemetry s.
Proof.
  destruct (resetSimulation_frame s) as [Hf Ht].
  unfold Scene.resetCallback.
  cbn [Scene.flags Scene.set_follow Scene.set_camera Scene.setResetJustApplied
       Scene.set_flags Scene.resetTimerRef].
  rewrite Hf. cbn. rewrite Ht. repeat split.
Qed.

(** The first stage of a reset comes due: afterwards the only pending
    re-enable timer is the one it has just set. *)
Lemma resetCallback_queue (s : Scene.State) (win : Window) (tm : Timer) :
  sceneOk s win ->
  In tm (pending win) ->
  action tm = ResetCallback ->
  let st := Scene.resetCallback (s, clearTimeout (tid tm) win) in
  sceneOk (fst st) (snd st)
  /\ filter World.isReenableTimer (pending (snd st))
     = [ {| tid := nextTimerId win; due := (clock win + 1000)%Z;
            action := ReenableCallback |} ].
Proof.
  intros [Hq Hs] Hin Hact st.
  assert (Hre : World.isReenableTimer tm = false)
    by (unfold World.isReenableTimer; rewrite Hact; reflexivity).
  pose proof (queueOk_fire_other win _ Hq tm Hin Hre) as Hq0.
  pose proof (queueOk_clear_ref _ _ Hq0) as Hq1.
  destruct (resetCallback_anatomy s (clearTimeout (tid tm) win))
    as (Hw & Hr & Ht).
  fold st in Hw, Hr, Ht.
  destruct (queueOk_set_reenable _ 1000 Hq1) as [Hq2 Hlist].
  assert (Hnext : forall w0 : Window,
            nextTimerId (match Scene.resetTimerRef (Scene.flags s) with
                         | Some id => clearTimeout id w0
                         | None => w0
                         end) = nextTimerId w0
            /\ clock (match Scene.resetTimerRef (Scene.flags s) with
                      | Some id => clearTimeout id w0
                      | None => w0
                      end) = clock w0).
  { intro w0. destruct (Scene.resetTimerRef (Scene.flags s)); split; reflexivity. }
  destruct (Hnext (clearTimeout (tid tm) win)) as [Hn Hc].
  split; [split|].
  - rewrite Hw, Hr. exact Hq2.
  - rewrite Ht, Hw. intros t0 Ht0. specialize (Hs t0 Ht0).
    unfold nowSeconds in *. cbn [setTimeout snd clock]. rewrite Hc. exact Hs.
  - rewrite Hw, Hlist, Hn, Hc. reflexivity.
Qed.

Lemma fire_ok (tm : Timer) (w : World.t) :
  In tm (pending (World.window w)) ->
  World.ok w -> World.ok (World.fire tm w).
Proof.
  intros Hin Hok. pose proof (ok_scene _ Hok) as Hsc.
  assert (Hh : Forall World.entryOk (World.record (World.Fired tm) w)).
  { unfold World.record. apply Forall_app. split; [apply Hok|].
    constructor; [exact I | constructor]. }
  unfold World.fire. destruct (action tm) as [| |present] eqn:Hact.
  - (* first stage of a reset *)
    cbn [Scene.runTimer fst snd]. apply deliver_ok; [constructor|].
    apply ok_intro; cbn [World.scene World.window World.history];
      [|exact Hh].
    apply (resetCallback_queue _ _ tm Hsc Hin Hact).
  - (* second stage of a reset *)
    cbn [Scene.runTimer fst snd]. apply deliver_ok; [constructor|].
    apply ok_intro; cbn [World.scene World.window World.history];
      [|exact Hh].
    destruct Hsc as [Hq Hs].
    assert (Hre : World.isReenableTimer tm = true)
      by (unfold World.isReenableTimer; rewrite Hact; reflexivity).
    pose proof (queueOk_reenable_id _ _ Hq tm Hin Hre) as Href.
    pose proof (queueOk_clear_ref _ _ Hq) as Hq'. rewrite Href in Hq'.
    split; [exact Hq' | exact Hs].
  - (* deferred completion signal *)
    cbn [Scene.runTimer fst snd].
    apply deliver_ok; [destruct present; repeat constructor|].
    apply ok_intro; cbn [World.scene World.window World.history];
      [|exact Hh].
    destruct Hsc as [Hq Hs]. split; [|exact Hs].
    apply (queueOk_fire_other _ _ Hq tm Hin).
    unfold World.isReenableTimer. rewrite Hact. reflexivity.
Qed.

Lemma fireDue_ok (fuel : nat) (w : World.t) :
  World.ok w -> World.ok (World.fireDue fuel w).
Proof.
  revert w. induction fuel as [|fuel IH]; intros w Hok; [exact Hok|].
  cbn [World.fireDue].
  destruct (find _ (pending (World.window w))) as [tm|] eqn:Hfind;
    [|exact Hok].
  apply IH. apply fire_ok; [|exact Hok].
  apply find_some in Hfind. apply Hfind.
Qed.

Lemma nowSeconds_advance (ms : Z) (win : Window) :
  (0 <= ms)%Z -> nowSeconds win <= nowSeconds (advance ms win).
Proof.
  intro Hms. unfold nowSeconds, advance. cbn [clock].
  assert (H : inject_Z (clock win) <= inject_Z (clock win + ms)).
  { rewrite <- Zle_Qle. lia. }
  unfold Qdiv. apply Qmult_le_compat_r; [exact H | discriminate].
Qed.

Lemma tick_ok (w : World.t) : World.ok w -> World.ok (World.tick w).
Proof.
  intros [Hq Hs Hh]. unfold World.tick. apply fireDue_ok.
  constructor; cbn [World.scene World.window World.history]; [| |exact Hh].
  - destruct Hq as [Hnd Hfresh Href]. constructor; assumption.
  - intros t0 Ht0. apply Qle_trans with (nowSeconds (World.window w)).
    + apply Hs. exact Ht0.
    + apply nowSeconds_advance. lia.
Qed.

Lemma step_ok (w : World.t) (e : World.Event) :
  World.ok w -> World.ok (World.step w e).
Proof.
  intro Hok. destruct e as [| | |cart box|delta|ms]; cbn [World.step].
  - apply click_ok. exact Hok.
  - apply click_ok. exact Hok.
  - apply click_ok. exact Hok.
  - destruct (Scene.physicsEnabled _); [|exact Hok].
    destruct Hok as [Hq Hs Hh]. constructor; assumption.
  - destruct (useFrame_ok (App.sceneProps (World.app w)) delta
                (World.scene w) (World.window w) (ok_scene _ Hok))
      as [Hsc Hcalls].
    apply deliver_ok; [exact Hcalls|].
    apply ok_intro; [exact Hsc | apply Hok].
  - induction ms as [|ms IH]; [exact Hok|].
    cbn [Nat.iter nat_rect]. apply tick_ok. exact IH.
Qed.

Lemma mount_ok (ps : App.Params) (t0 : Z) : World.ok (World.mount ps t0).
Proof.
  constructor; cbn.
  - constructor; cbn; constructor.
  - intros ? H. discriminate.
  - constructor.
Qed.

(** Every page reached from mounting satisfies the invariants. *)
Lemma run_ok (es : list World.Event) (w : World.t) :
  World.ok w -> World.ok (World.run es w).
Proof.
  unfold World.run. revert w.
  induction es as [|e es IH]; intros w Hok; [exact Hok|].
  cbn. apply IH. apply step_ok. exact Hok.
Qed.

(** ** Reset sequencer *)

(** C7, as amended.  On every page reached from mounting, the pending
    re-enable timers are exactly the one recorded in [resetTimerRef], so at
    most one is pending; and when the first stage of a reset comes due, any
    re-enable timer left pending by an earlier reset is cancelled and
    replaced: afterwards the only pending re-enable timer is the fresh one,
    due 1000 ms later. *)
Theorem reenable_timer_replaced (ps : App.Params) (t0 : Z)
    (es : list World.Event) :
  let w := World.run es (World.mount ps t0) in
  map tid (filter World.isReenableTimer (pending (World.window w)))
  = World.refTimers (Scene.resetTimerRef (Scene.flags (World.scene w)))
  /\ (length (filter World.isReenableTimer (pending (World.window w))) <= 1)%nat
  /\ forall tm,
       In tm (pending (World.window w)) ->
       action tm = ResetCallback ->
       filter World.isReenableTimer
         (pending (World.window (World.fire tm w)))
       = [ {| tid := nextTimerId (World.window w);
              due := (clock (World.window w) + 1000)%Z;
              action := ReenableCallback |} ].
Proof.
  intro w.
  assert (Hok : World.ok w) by (apply run_ok, mount_ok).
  pose proof (World.queue_ref _ _ (World.ok_queue _ Hok)) as Href.
  split; [exact Href|]. split.
  - rewrite <- (length_map tid), Href.
    destruct (Scene.resetTimerRef _); cbn; lia.
  - intros tm Hin Hact.
    unfold World.fire. rewrite Hact. cbn [Scene.runTimer fst snd].
    cbn [World.deliver fold_left World.window].
    apply (resetCallback_queue _ _ tm (ok_scene _ Hok) Hin Hact).
Qed.

(** A reset, a restart and a second reset before the first reset's re-enable
    timer is due: when the second reset's first stage runs, that timer is
    replaced. *)
Lemma reenable_timer_replaced_witness :
  let w := World.run [World.ClickStart; World.ClickReset; World.Elapse 100;
                      World.ClickStart; World.ClickReset]
                     (World.mount App.defaults 1000) in
  let stage1 := {| tid := 3; due := 1200; action := ResetCallback |} in
  filter World.isReenableTimer (pending (World.window w))
  = [ {| tid := 2; due := 2100; action := ReenableCallback |} ]
  /\ filter World.isReenableTimer
       (pending (World.window (World.fire stage1 w)))
     = [ {| tid := 4; due := 2100; action := ReenableCallback |} ].
Proof.
  intros w stage1. split; [vm_compute; reflexivity|].
  destruct (reenable_timer_replaced App.defaults 1000
              [World.ClickStart; World.ClickReset; World.Elapse 100;
               World.ClickStart; World.ClickReset]) as (_ & _ & Hfire).
  apply (Hfire stage1); [vm_compute; tauto | reflexivity].
Defined.

(** C7 as stated fails.  A run is reset, restarted 100 ms later and reset
    again 950 ms after that, while the first reset's re-enable timer (due
    1000 ms after its first stage) is still pending: 50 ms after the second
    reset is requested, that timer fires. *)
Lemma stale_reenable_timer_fires :
  World.staleFirings
    (World.history
       (World.run [World.ClickStart; World.ClickReset; World.Elapse 100;
                   World.ClickStart; World.Elapse 950; World.ClickReset;
                   World.Elapse 50]
                  (World.mount App.defaults 1000)))
  = [ {| tid := 2; due := 2100; action := ReenableCallback |} ].
Proof. vm_compute. reflexivity. Qed.

(** ** Telemetry and completion *)

Lemma scheduleCompletion_clock (p : Scene.Props) (c v : Vec3.t) (win : Window) :
  clock (Scene.scheduleCompletion p c v win) = clock win.
Proof.
  unfold Scene.scheduleCompletion.
  destruct (Scene.stoppedBeyondTarget p c v); reflexivity.
Qed.

(** The callbacks of a frame that runs with telemetry armed. *)
Lemma frame_telemetry (p : Scene.Props) (delta : Q) (s : Scene.State)
    (w : Window) (cart : RigidBody) (t0 : Q) (x0 : Vec3.t) :
  Scene.running p s = true ->
  Scene.cartRef s = Some cart ->
  Scene.onSimulationUpdate p = true ->
  Scene.simulationStartTime (Scene.telemetry s) = Some t0 ->
  ~ t0 == 0 ->
  Scene.initialCartPosition (Scene.telemetry s) = Some x0 ->
  let r := Scene.useFrame p delta (s, w) in
  let travelDistance := Qabs (Vec3.x (translation cart) - Vec3.x x0) in
  exists cart',
    Scene.cartRef (fst (Scene.after r)) = Some cart'
    /\ Scene.calls r
       = Scene.SimulationUpdate (nowSeconds w - t0) travelDistance
                                (Qabs (Vec3.x (linvel cart')))
         :: (if Num.geb travelDistance (Scene.distance p)
                && Scene.onSimulationComplete p
             then [Scene.SimulationComplete] else []).
Proof.
  intros Hrun Hcart Hupd Hstart Hnz Hinit r travelDistance.
  destruct (frame_anatomy p delta s w cart Hrun Hcart)
    as (_ & Hc' & _ & _ & _ & Ht & Hw & Hcalls).
  fold r in Hc', Ht, Hw, Hcalls.
  destruct (running_inv _ _ Hrun) as [Hsim _].
  eexists. split; [exact Hc'|].
  rewrite Hcalls. unfold Scene.telemetryCalls.
  rewrite Hsim, Hc', Hupd, Ht, Hstart, Hinit.
  apply truthy_nonzero in Hnz. rewrite Hnz.
  rewrite !applyTo_translation.
  unfold nowSeconds. rewrite Hw, scheduleCompletion_clock. reflexivity.
Qed.

(** Whatever distance a running frame reports is |x - x0|. *)
Lemma reported_distance (p : Scene.Props) (delta : Q) (s : Scene.State)
    (w : Window) (cart : RigidBody) (x0 : Vec3.t) (t d v : Q) :
  Scene.running p s = true ->
  Scene.cartRef s = Some cart ->
  Scene.initialCartPosition (Scene.telemetry s) = Some x0 ->
  In (Scene.SimulationUpdate t d v)
     (Scene.calls (Scene.useFrame p delta (s, w))) ->
  d = Qabs (Vec3.x (translation cart) - Vec3.x x0).
Proof.
  intros Hrun Hcart Hinit Hin.
  destruct (frame_anatomy p delta s w cart Hrun Hcart)
    as (_ & Hc' & _ & _ & _ & Ht & _ & Hcalls).
  rewrite Hcalls in Hin. unfold Scene.telemetryCalls in Hin.
  rewrite Hc', Ht, Hinit in Hin.
  destruct (Scene.isSimulating p); [|contradiction].
  destruct (Scene.onSimulationUpdate p); [|contradiction].
  destruct (Scene.simulationStartTime (Scene.telemetry s)) as [t0|];
    [|contradiction].
  destruct (Num.truthy t0); [|contradiction].
  rewrite !applyTo_translation in Hin.
  destruct Hin as [Hin | Hin].
  - injection Hin as _ <- _. reflexivity.
  - destruct (_ && _); [destruct Hin as [Hin | []]; discriminate | contradiction].
Qed.

(** C1, as amended.  In a frame that runs: if the cart is at or beyond the
    target distance and |velocity.x| < 0.1 (velocity as read at the start of
    the frame), one timer is set that invokes onSimulationComplete 100 ms
    later, and otherwise none is set; and, with telemetry armed and the
    callbacks supplied, onSimulationComplete is invoked in the frame itself,
    without delay, exactly when |x - x0| >= distance.  Nothing records that
    a signal has already been given. *)
Theorem completion_signals (p : Scene.Props) (delta : Q) (s : Scene.State)
    (w : Window) (cart : RigidBody) :
  Scene.running p s = true ->
  Scene.cartRef s = Some cart ->
  let r := Scene.useFrame p delta (s, w) in
  let x := Vec3.x (translation cart) in
  let v := Vec3.x (linvel cart) in
  let deferred :=
    {| tid := nextTimerId w; due := (clock w + 100)%Z;
       action := CompleteCallback (Scene.onSimulationComplete p) |} in
  (Scene.distance p <= x -> Qabs v < 0.1 ->
   pending (snd (Scene.after r)) = pending w ++ [deferred])
  /\ (x < Scene.distance p \/ 0.1 <= Qabs v -> snd (Scene.after r) = w)
  /\ (forall st,
        Scene.runTimer (CompleteCallback true) st
        = (st, [Scene.SimulationComplete]))
  /\ (forall t0 x0,
        Scene.onSimulationUpdate p = true ->
        Scene.onSimulationComplete p = true ->
        Scene.simulationStartTime (Scene.telemetry s) = Some t0 ->
        ~ t0 == 0 ->
        Scene.initialCartPosition (Scene.telemetry s) = Some x0 ->
        (Scene.distance p <= Qabs (x - Vec3.x x0) ->
         Scene.completeCalls (Scene.calls r) = 1%nat)
        /\ (Qabs (x - Vec3.x x0) < Scene.distance p ->
            Scene.completeCalls (Scene.calls r) = 0%nat)).
Proof.
  intros Hrun Hcart r x v deferred.
  destruct (frame_anatomy p delta s w cart Hrun Hcart)
    as (_ & _ & _ & _ & _ & _ & Hw & _).
  fold r in Hw. subst x v deferred.
  split; [|split; [|split]].
  - intros Hx Hv. rewrite Hw. unfold Scene.scheduleCompletion,
      Scene.stoppedBeyondTarget.
    apply geb_le in Hx. apply ltb_lt in Hv. rewrite Hx, Hv. reflexivity.
  - intros Hnot. rewrite Hw. unfold Scene.scheduleCompletion,
      Scene.stoppedBeyondTarget.
    destruct Hnot as [Hx | Hv].
    + apply geb_lt in Hx. rewrite Hx. reflexivity.
    + apply ltb_ge in Hv. rewrite Hv, andb_false_r. reflexivity.
  - reflexivity.
  - intros t0 x0 Hupd Hcomp Hstart Hnz Hinit.
    destruct (frame_telemetry p delta s w cart t0 x0
                Hrun Hcart Hupd Hstart Hnz Hinit) as (cart' & _ & Hcalls).
    fold r in Hcalls. rewrite Hcalls, Hcomp, andb_true_r. split.
    + intro Hd. apply geb_le in Hd. rewrite Hd. reflexivity.
    + intro Hd. apply geb_lt in Hd. rewrite Hd. reflexivity.
Qed.

(** A cart creeping at 0.09 that has just reached the target distance 1:
    the frame sets the deferred signal and also signals at once. *)
Lemma completion_signals_witness :
  let p := Samples.props Samples.slow in
  let cart := Samples.cartAt 1 0.09 in
  let r := Scene.useFrame p (1 / 60)
             (Samples.midRun cart (Samples.boxOn 1), Samples.windowAt 5000) in
  pending (snd (Scene.after r))
  = [ {| tid := 1; due := 5100; action := CompleteCallback true |} ]
  /\ Scene.completeCalls (Scene.calls r) = 1%nat.
Proof.
  intros p cart r.
  destruct (completion_signals p (1 / 60)
              (Samples.midRun cart (Samples.boxOn 1)) (Samples.windowAt 5000)
              cart eq_refl eq_refl) as (Hdeferred & _ & _ & Hnow).
  split.
  - apply Hdeferred; [discriminate | reflexivity].
  - apply (Hnow 1 RECALCULATED_CART_POSITION);
      try reflexivity; discriminate.
Defined.

(** C1 as stated fails.  With the shell's own wiring and the sliders at
    maxSpeed 0.1 and distance 1: the cart reaches x = 1 at velocity 0.09;
    that frame invokes onSimulationComplete at once and sets the deferred
    signal, which fires 100 ms later: two invocations for one run. *)
Lemma completion_signalled_twice :
  World.completions
    (World.history
       (World.run [World.ClickStart;
                   World.PhysicsStep (Samples.cartAt 1 0.09) (Samples.boxOn 1);
                   World.Frame (1 / 60);
                   World.Elapse 100]
                  (World.mount Samples.slow 1000)))
  = 2%nat.
Proof. vm_compute. reflexivity. Qed.

Lemma Qabs_diff_mono (x0 x1 x2 : Q) :
  (x0 <= x1 /\ x1 <= x2) \/ (x2 <= x1 /\ x1 <= x0) ->
  Qabs (x1 - x0) <= Qabs (x2 - x0).
Proof.
  intros [[H01 H12] | [H21 H10]].
  - rewrite !Qabs_pos; lra.
  - rewrite !Qabs_neg; lra.
Qed.

(** C4, as amended.  (1) On every page reached from mounting, every
    telemetry update ever delivered carries a non-negative elapsed time,
    distance and speed.  (2) The distance a frame reports is |x - x0|, with
    x0 the cart's position recorded at the start of the run; between two
    frames of a run it does not decrease provided the cart has not moved
    back toward x0 (x0 <= x1 <= x2, or the mirror image).  (3) [handleReset]
    stores distance 0, and the distance read-out shows 0 whenever the shell
    is neither simulating nor paused. *)
Theorem telemetry_report :
  (forall (ps : App.Params) (t0 : Z) (es : list World.Event)
          (at_ : Z) (time dist speed : Q),
     In (at_, World.Called (Scene.SimulationUpdate time dist speed))
        (World.history (World.run es (World.mount ps t0))) ->
     0 <= time /\ 0 <= dist /\ 0 <= speed)
  /\ (forall (p1 p2 : Scene.Props) (delta1 delta2 : Q)
             (s1 s2 : Scene.State) (w1 w2 : Window)
             (cart1 cart2 : RigidBody) (x0 : Vec3.t)
             (t1 d1 v1 t2 d2 v2 : Q),
        Scene.running p1 s1 = true ->
        Scene.running p2 s2 = true ->
        Scene.cartRef s1 = Some cart1 ->
        Scene.cartRef s2 = Some cart2 ->
        Scene.initialCartPosition (Scene.telemetry s1) = Some x0 ->
        Scene.initialCartPosition (Scene.telemetry s2) = Some x0 ->
        In (Scene.SimulationUpdate t1 d1 v1)
           (Scene.calls (Scene.useFrame p1 delta1 (s1, w1))) ->
        In (Scene.SimulationUpdate t2 d2 v2)
           (Scene.calls (Scene.useFrame p2 delta2 (s2, w2))) ->
        d1 = Qabs (Vec3.x (translation cart1) - Vec3.x x0)
        /\ d2 = Qabs (Vec3.x (translation cart2) - Vec3.x x0)
        /\ ((Vec3.x x0 <= Vec3.x (translation cart1)
             /\ Vec3.x (translation cart1) <= Vec3.x (translation cart2))
            \/ (Vec3.x (translation cart2) <= Vec3.x (translation cart1)
                /\ Vec3.x (translation cart1) <= Vec3.x x0) ->
            d1 <= d2))
  /\ (forall a : App.State,
        App.simulationDistance (App.handleReset a) = 0
        /\ App.displayedDistance (App.handleReset a) = 0
        /\ App.idle (App.handleReset a) = true
        /\ (App.idle a = true -> App.displayedDistance a = 0)).
Proof.
  split; [|split].
  - intros ps t0 es at_ time dist speed Hin.
    assert (Hok : World.ok (World.run es (World.mount ps t0)))
      by (apply run_ok, mount_ok).
    pose proof (World.ok_history _ Hok) as Hh.
    rewrite Forall_forall in Hh. exact (Hh _ Hin).
  - intros p1 p2 delta1 delta2 s1 s2 w1 w2 cart1 cart2 x0
           t1 d1 v1 t2 d2 v2 Hr1 Hr2 Hc1 Hc2 Hi1 Hi2 Hin1 Hin2.
    pose proof (reported_distance _ _ _ _ _ _ _ _ _ Hr1 Hc1 Hi1 Hin1) as E1.
    pose proof (reported_distance _ _ _ _ _ _ _ _ _ Hr2 Hc2 Hi2 Hin2) as E2.
    split; [exact E1|]. split; [exact E2|].
    intro Hord. rewrite E1, E2. apply Qabs_diff_mono. exact Hord.
  - intro a. repeat split.
    unfold App.idle, App.displayedDistance.
    destruct (App.isSimulating a), (App.isPaused a);
      try discriminate; reflexivity.
Qed.

(** A run started from the mounted page with the cart at x = 1 and then at
    x = 2: the two frames report 1 and 2, both updates are non-negative, and
    a reset afterwards shows 0. *)
Lemma telemetry_report_witness :
  let es := [World.ClickStart;
             World.PhysicsStep (Samples.cartAt 1 4) (Samples.boxOn 1);
             World.Elapse 16; World.Frame (1 / 60)] in
  let p := Samples.props App.defaults in
  let s1 := Samples.midRun (Samples.cartAt 1 4) (Samples.boxOn 1) in
  let s2 := Samples.midRun (Samples.cartAt 2 4) (Samples.boxOn 2) in
  (0 <= 16000 # 1000000 /\ 0 <= 1 /\ 0 <= 24584000 # 4896000)
  /\ (exists t1 v1 t2 v2,
        In (Scene.SimulationUpdate t1 1 v1)
           (Scene.calls (Scene.useFrame p (1 / 60) (s1, Samples.windowAt 5000)))
        /\ In (Scene.SimulationUpdate t2 2 v2)
              (Scene.calls (Scene.useFrame p (1 / 60) (s2, Samples.windowAt 5016)))
        /\ 1 <= 2)
  /\ App.displayedDistance
       (App.handleReset (World.app (World.run es (World.mount App.defaults 1000))))
     = 0.
Proof.
  intros es p s1 s2.
  destruct telemetry_report as (Hnonneg & Hmono & Hreset).
  split; [|split].
  - apply (Hnonneg App.defaults 1000%Z es 1016%Z).
    vm_compute. left. reflexivity.
  - assert (H1 : exists t v,
               In (Scene.SimulationUpdate t 1 v)
                  (Scene.calls (Scene.useFrame p (1 / 60)
                                  (s1, Samples.windowAt 5000))))
      by (eexists; eexists; vm_compute; left; reflexivity).
    assert (H2 : exists t v,
               In (Scene.SimulationUpdate t 2 v)
                  (Scene.calls (Scene.useFrame p (1 / 60)
                                  (s2, Samples.windowAt 5016))))
      by (eexists; eexists; vm_compute; left; reflexivity).
    destruct H1 as (t1 & v1 & H1). destruct H2 as (t2 & v2 & H2).
    exists t1, v1, t2, v2. split; [exact H1|]. split; [exact H2|].
    destruct (Hmono p p (1 / 60) (1 / 60) s1 s2
                (Samples.windowAt 5000) (Samples.windowAt 5016)
                (Samples.cartAt 1 4) (Samples.cartAt 2 4)
                RECALCULATED_CART_POSITION t1 1 v1 t2 2 v2
                eq_refl eq_refl eq_refl eq_refl eq_refl eq_refl H1 H2)
      as (_ & _ & Hle).
    apply Hle. left. split; discriminate.
  - exact (proj1 (proj2 (Hreset _))).
Defined.

(** C4 as stated fails.  The cart, two metres into a run, is knocked back
    by a tenth of a metre between two frames: the reported distance goes
    from 2 to 1.9. *)
Lemma reported_distance_decreases :
  exists d1 d2,
    World.reportedDistances
      (World.history
         (World.run [World.ClickStart;
                     World.PhysicsStep (Samples.cartAt 2 1) (Samples.boxOn 2);
                     World.Elapse 16; World.Frame (1 / 60);
                     World.PhysicsStep (Samples.cartAt 1.9 (-1))
                                       (Samples.boxOn 1.9);
                     World.Elapse 16; World.Frame (1 / 60)]
                    (World.mount App.defaults 1000)))
    = [d1; d2]
    /\ d1 == 2 /\ d2 == 1.9 /\ d2 < d1.
Proof.
  eexists. eexists. split; [vm_compute; reflexivity|].
  repeat split.
Qed.

(** * Further properties of the frame callback *)

(** X1.  The frame callback does nothing at all unless the shell is
    simulating, physics is enabled and the cart handle exists: the scene and
    the timer queue are returned as they were, no impulse is applied and no
    callback is invoked. *)
Theorem frame_idle_unless_running (p : Scene.Props) (delta : Q)
    (s : Scene.State) (w : Window) :
  Scene.isSimulating p = false
  \/ Scene.physicsEnabled (Scene.flags s) = false
  \/ Scene.cartRef s = None ->
  let r := Scene.useFrame p delta (s, w) in
  Scene.after r = (s, w) /\ Scene.impulses r = [] /\ Scene.calls r = [].
Proof.
  intros H r. subst r. unfold Scene.useFrame.
  destruct (Scene.physicsEnabled (Scene.flags s)) eqn:Hphys;
    destruct (Scene.isSimulating p) eqn:Hsim; cbn [negb orb];
    try (repeat split; reflexivity).
  destruct H as [H | [H | H]]; try discriminate.
  rewrite H. cbn. repeat split.
  unfold Scene.telemetryCalls. rewrite Hsim, H. reflexivity.
Qed.

Lemma frame_idle_unless_running_witness :
  let p := Samples.props App.defaults in
  let s := Scene.setPhysicsEnabled false
             (Samples.midRun (Samples.cartAt 100 0.05) (Samples.boxOn 100)) in
  let r := Scene.useFrame p (1 / 60) (s, Samples.windowAt 5000) in
  Scene.after r = (s, Samples.windowAt 5000)
  /\ Scene.impulses r = [] /\ Scene.calls r = [].
Proof.
  intros p s r.
  apply (frame_idle_unless_running p (1 / 60) s (Samples.windowAt 5000)).
  right. left. reflexivity.
Defined.

(** X2.  A frame that runs touches nothing of the cart but its linear
    velocity (and wakes it when an impulse is applied): position, rotation,
    angular velocity and mass are kept, the velocity components across the
    travel axis keep their value, and with m the (nonzero) mass the engine
    holds for the cart body the velocity along the travel axis changes by
    acceleration * delta * cartWeight / m when below maxSpeed, minus
    deceleration * delta * cartWeight / m when at or beyond the target
    distance.  With neither condition the cart handle is left exactly as it
    was. *)
Theorem frame_cart_velocity (p : Scene.Props) (delta : Q) (s : Scene.State)
    (w : Window) (cart : RigidBody) :
  Scene.running p s = true ->
  Scene.cartRef s = Some cart ->
  ~ mass cart == 0 ->
  let vx := Vec3.x (linvel cart) in
  let x := Vec3.x (translation cart) in
  let k := delta * Scene.cartWeight p / mass cart in
  exists cart',
    Scene.cartRef (fst (Scene.after (Scene.useFrame p delta (s, w))))
    = Some cart'
    /\ translation cart' = translation cart
    /\ rotation cart' = rotation cart
    /\ angvel cart' = angvel cart
    /\ mass cart' = mass cart
    /\ Vec3.y (linvel cart') == Vec3.y (linvel cart)
    /\ Vec3.z (linvel cart') == Vec3.z (linvel cart)
    /\ (vx < Scene.maxSpeed p -> x < Scene.distance p ->
        Vec3.x (linvel cart') == vx + Scene.acceleration p * k)
    /\ (vx < Scene.maxSpeed p -> Scene.distance p <= x ->
        Vec3.x (linvel cart')
        == vx + (Scene.acceleration p - Scene.deceleration p) * k)
    /\ (Scene.maxSpeed p <= vx -> Scene.distance p <= x ->
        Vec3.x (linvel cart') == vx - Scene.deceleration p * k)
    /\ (Scene.maxSpeed p <= vx -> x < Scene.distance p -> cart' = cart).
Proof.
  intros Hrun Hcart Hm vx x k. subst vx x k.
  destruct (frame_anatomy p delta s w cart Hrun Hcart) as (_ & Hc' & _).
  eexists. split; [exact Hc'|].
  unfold Scene.accelerationImpulse, Scene.decelerationImpulse.
  destruct (Num.ltb (Vec3.x (linvel cart)) (Scene.maxSpeed p)) eqn:Ev;
    destruct (Num.geb (Vec3.x (translation cart)) (Scene.distance p)) eqn:Ex;
    cbn [Scene.applyTo applyImpulse translation rotation angvel linvel mass
         Vec3.x Vec3.y Vec3.z];
    repeat match goal with |- _ /\ _ => split end;
    try reflexivity;
    try (intros; field; exact Hm);
    try (intros H1 H2; exfalso;
         first [ apply ltb_lt in H1 | apply ltb_ge in H1 ];
         first [ apply geb_le in H2 | apply geb_lt in H2 ];
         congruence).
Qed.

(** Braking at the target with acceleration above deceleration: a cart at
    rest, of mass 0.816 under cartWeight 10, picks up
    (5 - 3) * (1/60) * 10 / 0.816. *)
Lemma frame_cart_velocity_witness :
  let p := Samples.props Samples.slow in
  let cart := Samples.cartAt 1 0 in
  exists cart',
    Scene.cartRef (fst (Scene.after (Scene.useFrame p (1 / 60)
                     (Samples.midRun cart (Samples.boxOn 1),
                      Samples.windowAt 5000))))
    = Some cart'
    /\ translation cart' = translation cart
    /\ Vec3.x (linvel cart') == 0 + (5 - 3) * ((1 / 60) * 10 / 0.816).
Proof.
  intros p cart.
  destruct (frame_cart_velocity p (1 / 60)
              (Samples.midRun cart (Samples.boxOn 1)) (Samples.windowAt 5000)
              cart eq_refl eq_refl)
    as (cart' & Hc & Ht & _ & _ & _ & _ & _ & _ & Hboth & _).
  - discriminate.
  - exists cart'. split; [exact Hc|]. split; [exact Ht|].
    assert (Hv := Hboth eq_refl).
    apply (Qeq_trans _ _ _ (Hv ltac:(discriminate))).
    vm_compute. reflexivity.
Defined.

(** X3.  In a frame that runs while [resetJustApplied] is set, the box is
    pinned to the cart whatever state it was in: it is put at the cart's x
    and z with its bottom face on the cart's top face (the position
    [resetSimulation] computes for the same cart position), it gets the
    cart's travel-axis velocity as read at the start of the frame and no
    other velocity, no angular velocity, and the identity rotation. *)
Theorem locked_regime_pins_box (p : Scene.Props) (delta : Q) (s : Scene.State)
    (w : Window) (cart box : RigidBody) :
  Scene.running p s = true ->
  Scene.resetJustApplied (Scene.flags s) = true ->
  Scene.cartRef s = Some cart ->
  Scene.boxRef s = Some box ->
  exists b,
    Scene.boxRef (fst (Scene.after (Scene.useFrame p delta (s, w)))) = Some b
    /\ Vec3.x (translation b) = Vec3.x (translation cart)
    /\ Vec3.z (translation b) = Vec3.z (translation cart)
    /\ Vec3.y (translation b) - height BOX_SIZE / 2
       == Vec3.y (translation cart) + height CART_SIZE / 2
    /\ translation b = translation (Scene.resetBox (translation cart) box)
    /\ linvel b = Vec3.mk (Vec3.x (linvel cart)) 0 0
    /\ angvel b = Vec3.zero
    /\ rotation b = Quat.identity.
Proof.
  intros Hrun Hlock Hcart Hbox.
  destruct (frame_anatomy p delta s w cart Hrun Hcart) as (_ & _ & Hb & _).
  rewrite Hbox, Hlock in Hb. cbn [option_map] in Hb.
  eexists. split; [exact Hb|].
  cbn. repeat split. ring.
Qed.

Lemma locked_regime_pins_box_witness :
  let p := Samples.props App.defaults in
  let cart := Samples.cartAt 20 4 in
  let box := Samples.body (Vec3.mk 23 0.25 1) (Vec3.mk 1 (-3) 2)
                          (Quat.mk 0.6 0 0 0.8) in
  let s := Scene.setResetJustApplied true (Samples.midRun cart box) in
  exists b,
    Scene.boxRef (fst (Scene.after (Scene.useFrame p (1 / 60)
                     (s, Samples.windowAt 5000)))) = Some b
    /\ Vec3.x (translation b) = 20
    /\ Vec3.z (translation b) = 0
    /\ linvel b = Vec3.mk 4 0 0
    /\ rotation b = Quat.identity.
Proof.
  intros p cart box s.
  destruct (locked_regime_pins_box p (1 / 60) s (Samples.windowAt 5000)
              cart box eq_refl eq_refl eq_refl eq_refl)
    as (b & Hb & Hx & Hz & _ & _ & Hv & _ & Hr).
  exists b. repeat split; assumption.
Defined.

(** X4.  Outside the post-reset lock a frame changes the box only if the
    box's centre is strictly inside the cart's footprint: within the cart's
    half length along x and within its half depth along z. *)
Theorem stabilization_only_above_cart (p : Scene.Props) (delta : Q)
    (s : Scene.State) (w : Window) (cart box : RigidBody) :
  Scene.running p s = true ->
  Scene.resetJustApplied (Scene.flags s) = false ->
  Scene.cartRef s = Some cart ->
  Scene.boxRef s = Some box ->
  Scene.boxRef (fst (Scene.after (Scene.useFrame p delta (s, w)))) <> Some box ->
  Qabs (Vec3.x (translation box) - Vec3.x (translation cart)) < CART_HALF_WIDTH
  /\ Qabs (Vec3.z (translation box) - Vec3.z (translation cart))
     < CART_HALF_DEPTH.
Proof.
  intros Hrun Hfree Hcart Hbox Hchanged.
  destruct (frame_anatomy p delta s w cart Hrun Hcart) as (_ & _ & Hb & _).
  rewrite Hbox, Hfree in Hb. cbn [option_map] in Hb.
  destruct (Scene.isBoxAboveCart (translation box) (translation cart)) eqn:E.
  - apply isBoxAboveCart_true in E. destruct E as [Ex Ez].
    split.
    + apply Qlt_le_trans with 0.9; [exact Ex | discriminate].
    + apply Qlt_le_trans with 0.4; [exact Ez | discriminate].
  - exfalso. apply Hchanged. rewrite Hb.
    unfold Scene.stabilizeBox. rewrite E. reflexivity.
Qed.

Lemma stabilization_only_above_cart_witness :
  let cart := Samples.cartAt 20 4 in
  let box := Samples.body (Vec3.mk 20.3 0.8 0.1) (Vec3.mk 4 2 0)
                          (Quat.mk 0.6 0 0 0.8) in
  Qabs (20.3 - 20) < CART_HALF_WIDTH /\ Qabs (0.1 - 0) < CART_HALF_DEPTH.
Proof.
  intros cart box.
  apply (stabilization_only_above_cart (Samples.props App.defaults) (1 / 60)
           (Samples.midRun cart box) (Samples.windowAt 5000) cart box
           eq_refl eq_refl eq_refl eq_refl).
  vm_compute. discriminate.
Defined.


(** ** Camera follow over several frames *)

(** What a frame that runs hands on to the next one. *)
Lemma frame_keeps (p : Scene.Props) (delta : Q) (s : Scene.State) (w : Window)
    (cart : RigidBody) :
  Scene.running p s = true ->
  Scene.cartRef s = Some cart ->
  let s' := fst (Scene.after (Scene.useFrame p delta (s, w))) in
  Scene.running p s' = true
  /\ (exists cart', Scene.cartRef s' = Some cart'
                    /\ translation cart' = translation cart)
  /\ Scene.follow s' = Scene.follow s
  /\ Scene.camera s' = Scene.camera (Scene.followCamera p (translation cart) s).
Proof.
  intros Hrun Hcart s'.
  destruct (frame_anatomy p delta s w cart Hrun Hcart)
    as (_ & Hc' & _ & Hcam & Hf & _).
  fold s' in Hc', Hcam, Hf.
  split; [|split; [|split]].
  - unfold Scene.running in *. rewrite Hf. exact Hrun.
  - eexists. split; [exact Hc'|]. rewrite !applyTo_translation. reflexivity.
  - destruct (followCamera_frame p (translation cart) s)
      as (_ & Fb & _ & _ & Ffo & _).
    destruct (running_inv _ _ Hrun) as [Hsim Hphys].
    subst s'. unfold Scene.useFrame. rewrite Hsim, Hphys, Hcart.
    cbn [negb orb Scene.after fst].
    unfold Scene.manageBox.
    cbn [Scene.boxRef Scene.set_cartRef Scene.setWheelRotation].
    rewrite Fb. destruct (Scene.boxRef s); cbn; exact Ffo.
  - exact Hcam.
Qed.

Lemma frames_succ (p : Scene.Props) (delta : Q) (n : nat)
    (st : Scene.State * Window) :
  Session.frames p delta (S n) st
  = Scene.after (Scene.useFrame p delta (Session.frames p delta n st)).
Proof. reflexivity. Qed.

(** X6.  With the cart standing still at x, n frames in a row bring the
    camera's x towards the target (x + captured offset) geometrically: the
    remaining error is 0.9 ^ n times the initial one, so the camera never
    overshoots; and after the first frame its y and z are those captured at
    the start of the run. *)
Theorem camera_converges (p : Scene.Props) (delta : Q) (n : nat)
    (s : Scene.State) (w : Window) (cart : RigidBody)
    (startCamera offset : Vec3.t) (direction : Scene.Orientation) :
  Scene.running p s = true ->
  Scene.cartRef s = Some cart ->
  Scene.simulationStartCameraPosition (Scene.follow s) = Some startCamera ->
  Scene.cameraOffset (Scene.follow s) = Some offset ->
  Scene.simulationStartCameraDirection (Scene.follow s) = Some direction ->
  let target := Vec3.x (translation cart) + Vec3.x offset in
  let cam := Scene.camera (fst (Session.frames p delta n (s, w))) in
  Vec3.x (Scene.position cam) - target
  == Session.power 0.9 n * (Vec3.x (Scene.position (Scene.camera s)) - target)
  /\ ((0 < n)%nat ->
      Vec3.y (Scene.position cam) = Vec3.y startCamera
      /\ Vec3.z (Scene.position cam) = Vec3.z startCamera).
Proof.
  intros Hrun Hcart Hstart Hoff Hdir target cam. subst cam.
  assert (Hall :
    let sn := fst (Session.frames p delta n (s, w)) in
    Scene.running p sn = true
    /\ (exists c, Scene.cartRef sn = Some c
                  /\ translation c = translation cart)
    /\ Scene.follow sn = Scene.follow s
    /\ Vec3.x (Scene.position (Scene.camera sn)) - target
       == Session.power 0.9 n
          * (Vec3.x (Scene.position (Scene.camera s)) - target)
    /\ ((0 < n)%nat ->
        Vec3.y (Scene.position (Scene.camera sn)) = Vec3.y startCamera
        /\ Vec3.z (Scene.position (Scene.camera sn)) = Vec3.z startCamera)).
  { induction n as [|n IH].
    - cbn. split; [exact Hrun|]. split; [exists cart; split; auto|].
      split; [reflexivity|]. split; [ring | lia].
    - destruct IH as (Hr & (c & Hc & Htc) & Hfo & Hx & _).
      rewrite frames_succ.
      destruct (Session.frames p delta n (s, w)) as [sn wn].
      cbn [fst] in Hr, Hc, Hfo, Hx.
      destruct (frame_keeps p delta sn wn c Hr Hc) as (Hr' & Hc' & Hfo' & Hcam).
      cbv zeta. split; [exact Hr'|]. split.
      { destruct Hc' as (c' & Hc' & Ht'). exists c'. split; [exact Hc'|].
        congruence. }
      split; [congruence|].
      rewrite Hcam. unfold Scene.followCamera.
      destruct (running_inv _ _ Hr) as [Hsim _].
      rewrite Hsim, Hfo, Hstart, Hoff, Hdir.
      cbn [Scene.camera Scene.set_camera Scene.position Vec3.x Vec3.y Vec3.z].
      split; [|intros _; split; reflexivity].
      rewrite Htc. fold target. cbn [Session.power].
      setoid_replace (Vec3.x (Scene.position (Scene.camera sn))
                      + (target - Vec3.x (Scene.position (Scene.camera sn)))
                        * 0.1 - target)
        with (0.9 * (Vec3.x (Scene.position (Scene.camera sn)) - target))
        by ring.
      rewrite Hx. ring. }
  destruct Hall as (_ & _ & _ & Hx & Hyz). split; assumption.
Qed.

(** Two frames with the cart at x = 20 and the camera starting at x = 10,
    target 30: the error goes from -20 to 0.81 * -20. *)
Lemma camera_converges_witness :
  let p := Samples.props App.defaults in
  let cart := Samples.cartAt 20 4 in
  let s := Samples.midRun cart (Samples.boxOn 20) in
  let cam := Scene.camera (fst (Session.frames p (1 / 60) 2
                                  (s, Samples.windowAt 5000))) in
  Vec3.x (Scene.position cam) - (20 + 10)
  == Session.power 0.9 2 * (10 - (20 + 10))
  /\ Vec3.y (Scene.position cam) = 10.
Proof.
  intros p cart s cam.
  destruct (camera_converges p (1 / 60) 2 s (Samples.windowAt 5000) cart
              (Vec3.mk 10 10 10) (Vec3.mk 10 (10 - CART_CENTER_Y) 10)
              Scene.InitialOrientation
              eq_refl eq_refl eq_refl eq_refl eq_refl) as [Hx Hyz].
  split; [exact Hx|]. apply Hyz. lia.
Defined.



(** * Further properties of the running page *)

(** ** Two more invariants *)

Lemma effect_flags (p : Scene.Props) (s : Scene.State) (win : Window) :
  let st := Scene.isSimulatingEffect p (s, win) in
  Scene.prevIsSimulating (Scene.flags (fst st)) = Scene.isSimulating p
  /\ ((Session.settling s = true -> Session.resetPending win) ->
      Session.settling (fst st) = true -> Session.resetPending (snd st)).
Proof.
  unfold Scene.isSimulatingEffect.
  destruct (Scene.prevIsSimulating (Scene.flags s)) eqn:Hprev,
           (Scene.isSimulating p) eqn:Hsim; cbn [negb andb fst snd].
  - split; [reflexivity|]. intros H. exact H.
  - split; [reflexivity|]. intros _ _.
    eexists. split; [apply in_or_app; right; left; reflexivity | reflexivity].
  - destruct (Scene.cartRef s); (split; [reflexivity|]); intros H; exact H.
  - split; [reflexivity|]. intros H. exact H.
Qed.

Lemma rerender_pageOk (w : World.t) :
  World.ok w ->
  (Session.settling (World.scene w) = true ->
   Session.resetPending (World.window w)) ->
  Session.pageOk (World.rerender w).
Proof.
  intros Hok Hset. split; [apply rerender_ok; exact Hok|].
  unfold World.rerender, Session.synced.
  destruct (Bool.eqb _ _) eqn:E.
  - split; [|exact Hset]. apply eqb_prop in E. symmetry. exact E.
  - destruct (effect_flags (App.sceneProps (World.app w)) (World.scene w)
                (World.window w)) as [Hprev Hkeep].
    cbn [World.scene World.window World.app]. split.
    + rewrite Hprev. reflexivity.
    + apply Hkeep. exact Hset.
Qed.

Lemma notify_pageOk (w : World.t) (c : Scene.Call) :
  World.callOk c -> Session.pageOk w -> Session.pageOk (World.notify w c).
Proof.
  intros Hc (Hok & _ & Hset). unfold World.notify.
  apply rerender_pageOk; [|exact Hset].
  destruct Hok as [Hq Hs Hh].
  constructor; cbn [World.scene World.window World.history]; try assumption.
  unfold World.record. apply Forall_app. split; [exact Hh|].
  constructor; [exact Hc | constructor].
Qed.

Lemma deliver_pageOk (cs : list Scene.Call) (w : World.t) :
  Forall World.callOk cs -> Session.pageOk w -> Session.pageOk (World.deliver cs w).
Proof.
  unfold World.deliver. revert w.
  induction cs as [|c cs IH]; intros w Hcs Hok; [exact Hok|].
  inversion Hcs; subst. cbn. apply IH; [assumption|].
  apply notify_pageOk; assumption.
Qed.

Lemma click_pageOk (disabled : App.State -> bool)
    (handler : App.State -> App.State) (w : World.t) :
  Session.pageOk w -> Session.pageOk (World.click disabled handler w).
Proof.
  intros Hpage. unfold World.click. destruct (disabled _); [exact Hpage|].
  destruct Hpage as (Hok & _ & Hset).
  apply rerender_pageOk; [|exact Hset].
  destruct Hok as [Hq Hs Hh]. constructor; assumption.
Qed.

Lemma useFrame_flags (p : Scene.Props) (delta : Q) (s : Scene.State)
    (win : Window) :
  let r := Scene.useFrame p delta (s, win) in
  Scene.flags (fst (Scene.after r)) = Scene.flags s
  /\ (forall tm, In tm (pending win) -> In tm (pending (snd (Scene.after r)))).
Proof.
  intro r.
  destruct (Scene.running p s) eqn:Hrun.
  - destruct (Scene.cartRef s) as [cart|] eqn:Hcart.
    + destruct (frame_anatomy p delta s win cart Hrun Hcart)
        as (_ & _ & _ & _ & Hf & _ & Hw & _).
      fold r in Hf, Hw. split; [exact Hf|].
      intros tm Hin. rewrite Hw. unfold Scene.scheduleCompletion.
      destruct (Scene.stoppedBeyondTarget _ _ _); [|exact Hin].
      cbn. apply in_or_app. left. exact Hin.
    + destruct (running_inv _ _ Hrun) as [Hsim Hphys].
      subst r. unfold Scene.useFrame. rewrite Hsim, Hphys, Hcart. cbn.
      split; [reflexivity | auto].
  - subst r. unfold Scene.useFrame. unfold Scene.running in Hrun.
    destruct (Scene.isSimulating p), (Scene.physicsEnabled (Scene.flags s));
      try discriminate; cbn; (split; [reflexivity | auto]).
Qed.

Lemma clearTimeout_keeps (win : Window) (tm other : Timer) :
  NoDup (map tid (pending win)) ->
  In tm (pending win) -> In other (pending win) -> other <> tm ->
  In other (pending (clearTimeout (tid tm) win)).
Proof.
  intros Hnd Htm Hother Hne. cbn. apply filter_In. split; [exact Hother|].
  apply negb_true_iff.
  destruct (Pos.eqb_spec (tid other) (tid tm)) as [E | E]; [|reflexivity].
  exfalso. apply Hne.
  apply (NoDup_map_eq tid (pending win)); assumption.
Qed.

Lemma fire_pageOk (tm : Timer) (w : World.t) :
  In tm (pending (World.window w)) ->
  Session.pageOk w -> Session.pageOk (World.fire tm w).
Proof.
  intros Hin (Hok & Hsync & Hset).
  pose proof (fire_ok tm w Hin Hok) as Hok'.
  pose proof (ok_scene _ Hok) as Hsc.
  unfold World.fire in *. destruct (action tm) as [| |present] eqn:Hact;
    cbn [Scene.runTimer fst snd] in *.
  - (* first stage *)
    cbn [World.deliver fold_left] in *.
    split; [exact Hok'|]. split.
    + unfold Session.synced in *. cbn [World.scene World.app].
      destruct (resetSimulation_frame (World.scene w)) as [Hf _].
      unfold Scene.resetCallback. cbn. rewrite Hf. exact Hsync.
    + intros _. cbn [World.window].
      destruct (resetCallback_queue _ _ tm Hsc Hin Hact) as [_ Hlist].
      eexists. split.
      * assert (H : In {| tid := nextTimerId (World.window w);
                          due := (clock (World.window w) + 1000)%Z;
                          action := ReenableCallback |}
                       (filter World.isReenableTimer
                          (pending (snd (Scene.resetCallback
                             (World.scene w,
                              clearTimeout (tid tm) (World.window w)))))))
          by (rewrite Hlist; left; reflexivity).
        apply filter_In in H. apply H.
      * reflexivity.
  - (* second stage *)
    cbn [World.deliver fold_left] in *.
    split; [exact Hok'|]. split.
    + exact Hsync.
    + intro H. discriminate H.
  - (* deferred completion signal *)
    apply deliver_pageOk; [destruct present; repeat constructor|].
    split; [|split].
    + apply ok_intro; cbn [World.scene World.window World.history].
      * destruct Hsc as [Hq Hs]. split; [|exact Hs].
        apply (queueOk_fire_other _ _ Hq tm Hin).
        unfold World.isReenableTimer. rewrite Hact. reflexivity.
      * unfold World.record. apply Forall_app. split; [apply Hok|].
        constructor; [exact I | constructor].
    + exact Hsync.
    + cbn [World.scene World.window]. intro H.
      destruct (Hset H) as (other & Hother & Hreset).
      exists other. split; [|exact Hreset].
      apply clearTimeout_keeps; try assumption.
      * apply Hok.
      * intro E. subst other. unfold World.isResetTimer in Hreset.
        rewrite Hact in Hreset. discriminate.
Qed.

Lemma fireDue_pageOk (fuel : nat) (w : World.t) :
  Session.pageOk w -> Session.pageOk (World.fireDue fuel w).
Proof.
  revert w. induction fuel as [|fuel IH]; intros w Hok; [exact Hok|].
  cbn [World.fireDue].
  destruct (find _ (pending (World.window w))) as [tm|] eqn:Hfind;
    [|exact Hok].
  apply IH. apply fire_pageOk; [|exact Hok].
  apply find_some in Hfind. apply Hfind.
Qed.

Lemma step_pageOk (w : World.t) (e : World.Event) :
  Session.pageOk w -> Session.pageOk (World.step w e).
Proof.
  intro Hpage. destruct e as [| | |cart box|delta|ms]; cbn [World.step].
  - apply click_pageOk. exact Hpage.
  - apply click_pageOk. exact Hpage.
  - apply click_pageOk. exact Hpage.
  - destruct (Scene.physicsEnabled _); [|exact Hpage].
    destruct Hpage as (Hok & Hsync & Hset).
    split; [|split; [exact Hsync | exact Hset]].
    destruct Hok as [Hq Hs Hh]. constructor; assumption.
  - destruct Hpage as (Hok & Hsync & Hset).
    destruct (useFrame_ok (App.sceneProps (World.app w)) delta
                (World.scene w) (World.window w) (ok_scene _ Hok))
      as [Hsc Hcalls].
    destruct (useFrame_flags (App.sceneProps (World.app w)) delta
                (World.scene w) (World.window w)) as [Hf Hkeep].
    apply deliver_pageOk; [exact Hcalls|].
    split; [apply ok_intro; [exact Hsc | apply Hok] |].
    split.
    + unfold Session.synced in *. cbn [World.scene World.app].
      rewrite Hf. exact Hsync.
    + cbn [World.scene World.window]. unfold Session.settling.
      rewrite Hf. intro H. destruct (Hset H) as (tm & Hin & Hreset).
      exists tm. split; [apply Hkeep; exact Hin | exact Hreset].
  - induction ms as [|ms IH]; [exact Hpage|].
    cbn [Nat.iter nat_rect]. unfold World.tick. apply fireDue_pageOk.
    destruct IH as (Hok & Hsync & Hset).
    split; [|split; [exact Hsync | exact Hset]].
    destruct Hok as [Hq Hs Hh].
    constructor; cbn [World.scene World.window World.history]; [| |exact Hh].
    + destruct Hq as [Hnd Hfresh Href]. constructor; assumption.
    + intros t0 Ht0. apply Qle_trans with (nowSeconds (World.window
                                             (Nat.iter ms World.tick w))).
      * apply Hs. exact Ht0.
      * apply nowSeconds_advance. lia.
Qed.

Lemma run_pageOk (es : list World.Event) (w : World.t) :
  Session.pageOk w -> Session.pageOk (World.run es w).
Proof.
  unfold World.run. revert w.
  induction es as [|e es IH]; intros w Hok; [exact Hok|].
  cbn. apply IH. apply step_pageOk. exact Hok.
Qed.

Lemma mount_pageOk (ps : App.Params) (t0 : Z) : Session.pageOk (World.mount ps t0).
Proof.
  split; [apply mount_ok|]. split; [reflexivity|].
  intro H. discriminate H.
Qed.

(** ** The reset sequence as a whole *)

(** X8.  On every page reached from mounting: while physics is switched off
    or the post-reset lock is on, a timer of the reset sequence (its first or
    its second stage) is pending, so the page is never left frozen with
    nothing scheduled to release it. *)
Theorem settling_has_pending_timer (ps : App.Params) (t0 : Z)
    (es : list World.Event) :
  let w := World.run es (World.mount ps t0) in
  Scene.physicsEnabled (Scene.flags (World.scene w)) = false
  \/ Scene.resetJustApplied (Scene.flags (World.scene w)) = true ->
  exists tm,
    In tm (pending (World.window w))
    /\ (action tm = ResetCallback \/ action tm = ReenableCallback).
Proof.
  intros w Hsettling.
  destruct (run_pageOk es _ (mount_pageOk ps t0)) as (_ & _ & Hset).
  fold w in Hset.
  destruct Hset as (tm & Hin & Hreset).
  - unfold Session.settling. destruct Hsettling as [H | H]; rewrite H.
    + reflexivity.
    + apply orb_true_r.
  - exists tm. split; [exact Hin|].
    unfold World.isResetTimer in Hreset.
    destruct (action tm); [left | right | discriminate]; reflexivity.
Qed.

Lemma settling_has_pending_timer_witness :
  exists tm,
    In tm (pending (World.window
             (World.run [World.ClickStart; World.ClickReset; World.Elapse 40]
                        (World.mount App.defaults 1000))))
    /\ (action tm = ResetCallback \/ action tm = ReenableCallback).
Proof.
  apply (settling_has_pending_timer App.defaults 1000
           [World.ClickStart; World.ClickReset; World.Elapse 40]).
  left. vm_compute. reflexivity.
Defined.

(** X9.  Unmounting the scene on any page reached from mounting leaves no
    re-enable timer pending: the cleanup clears the one recorded in
    [resetTimerRef], and there is never another. *)
Theorem unmount_clears_reenable_timer (ps : App.Params) (t0 : Z)
    (es : list World.Event) :
  let w := World.run es (World.mount ps t0) in
  filter World.isReenableTimer
    (pending (Session.unmountCleanup (World.scene w, World.window w)))
  = [].
Proof.
  intro w.
  assert (Hok : World.ok w) by (apply run_ok, mount_ok).
  pose proof (queueOk_clear_ref _ _ (World.ok_queue _ Hok)) as Hq.
  pose proof (World.queue_ref _ _ Hq) as Href.
  unfold Session.unmountCleanup. cbn [fst snd].
  cbn [World.refTimers] in Href.
  apply map_eq_nil in Href. exact Href.
Qed.

(** X10.  A completion signal delivered while the shell is simulating puts
    the scene and the timer queue in exactly the state the Reset button
    would: physics is switched off and the first stage of the reset sequence
    is set, due 100 ms later. *)
Theorem completion_starts_reset (w : World.t) :
  App.isSimulating (World.app w) = true ->
  Session.synced w ->
  let done := World.notify w Scene.SimulationComplete in
  let reset := World.step w World.ClickReset in
  World.scene done = World.scene reset
  /\ World.window done = World.window reset
  /\ App.isSimulating (World.app done) = false
  /\ Scene.physicsEnabled (Scene.flags (World.scene done)) = false
  /\ pending (World.window done)
     = pending (World.window w)
       ++ [ {| tid := nextTimerId (World.window w);
               due := (clock (World.window w) + 100)%Z;
               action := ResetCallback |} ].
Proof.
  intros Hsim Hsync done reset. subst done reset.
  unfold Session.synced in Hsync.
  cbn [World.step]. unfold World.click, App.resetDisabled.
  rewrite Hsim. cbn [negb andb].
  unfold World.notify, World.rerender.
  cbn [World.app World.scene World.window World.history
       App.sceneProps Scene.isSimulating App.handleReset
       App.handleSimulationComplete App.isSimulating].
  rewrite Hsync, Hsim. cbn [Bool.eqb].
  unfold Scene.isSimulatingEffect. rewrite Hsync, Hsim.
  cbn. repeat split.
Qed.

Lemma completion_starts_reset_witness :
  let w := World.run [World.ClickStart;
                      World.PhysicsStep (Samples.cartAt 100 9)
                                        (Samples.boxOn 100)]
                     (World.mount App.defaults 1000) in
  World.scene (World.notify w Scene.SimulationComplete)
  = World.scene (World.step w World.ClickReset)
  /\ pending (World.window (World.notify w Scene.SimulationComplete))
     = [ {| tid := 1; due := 1100; action := ResetCallback |} ].
Proof.
  intro w.
  destruct (completion_starts_reset w eq_refl eq_refl)
    as (Hs & _ & _ & _ & Hp).
  split; [exact Hs | exact Hp].
Defined.

(** ** The Stop button *)

Lemma sameScene_rerender (w1 w2 : World.t) :
  Session.sameScene w1 w2 ->
  Session.sameScene (World.rerender w1) (World.rerender w2).
Proof.
  intros (Hs & Hw & Hh & Hp). unfold World.rerender, World.record.
  rewrite Hs, Hw, Hh, Hp.
  destruct (Bool.eqb _ _); [repeat split; assumption|].
  repeat split; cbn [World.scene World.window World.history World.app];
    try reflexivity; exact Hp.
Qed.

Lemma sameProps_after (a1 a2 : App.State) (c : Scene.Call) :
  App.sceneProps a1 = App.sceneProps a2 ->
  App.sceneProps
    match c with
    | Scene.SimulationUpdate time dist speed =>
        App.handleSimulationUpdate time dist speed a1
    | Scene.SimulationComplete => App.handleSimulationComplete a1
    end
  = App.sceneProps
      match c with
      | Scene.SimulationUpdate time dist speed =>
          App.handleSimulationUpdate time dist speed a2
      | Scene.SimulationComplete => App.handleSimulationComplete a2
      end.
Proof.
  unfold App.sceneProps. intro H. injection H as H1 H2 H3 H4 H5 H6 H7 H8 H9.
  destruct c; cbn; congruence.
Qed.

Lemma sameScene_notify (w1 w2 : World.t) (c : Scene.Call) :
  Session.sameScene w1 w2 ->
  Session.sameScene (World.notify w1 c) (World.notify w2 c).
Proof.
  intros (Hs & Hw & Hh & Hp). unfold World.notify.
  apply sameScene_rerender. unfold World.record.
  repeat split; cbn [World.scene World.window World.history World.app];
    try assumption.
  - rewrite Hh, Hw. reflexivity.
  - apply sameProps_after. exact Hp.
Qed.

Lemma sameScene_deliver (cs : list Scene.Call) (w1 w2 : World.t) :
  Session.sameScene w1 w2 ->
  Session.sameScene (World.deliver cs w1) (World.deliver cs w2).
Proof.
  unfold World.deliver. revert w1 w2.
  induction cs as [|c cs IH]; intros w1 w2 H; [exact H|].
  cbn. apply IH. apply sameScene_notify. exact H.
Qed.

Lemma sameScene_fire (tm : Timer) (w1 w2 : World.t) :
  Session.sameScene w1 w2 ->
  Session.sameScene (World.fire tm w1) (World.fire tm w2).
Proof.
  intros (Hs & Hw & Hh & Hp). unfold World.fire, World.record.
  rewrite Hs, Hw, Hh. apply sameScene_deliver.
  repeat split; exact Hp.
Qed.

Lemma sameScene_fireDue (fuel : nat) (w1 w2 : World.t) :
  Session.sameScene w1 w2 ->
  Session.sameScene (World.fireDue fuel w1) (World.fireDue fuel w2).
Proof.
  revert w1 w2. induction fuel as [|fuel IH]; intros w1 w2 H; [exact H|].
  cbn [World.fireDue]. pose proof H as (_ & Hw & _). rewrite Hw.
  destruct (find _ (pending (World.window w2))); [|exact H].
  apply IH. apply sameScene_fire. exact H.
Qed.

Lemma sameScene_tick (w1 w2 : World.t) :
  Session.sameScene w1 w2 ->
  Session.sameScene (World.tick w1) (World.tick w2).
Proof.
  intros (Hs & Hw & Hh & Hp). unfold World.tick. rewrite Hs, Hw, Hh.
  apply sameScene_fireDue. repeat split; exact Hp.
Qed.

Lemma sameScene_step (e : World.Event) (w1 w2 : World.t) :
  Session.isClick e = false ->
  Session.sameScene w1 w2 ->
  Session.sameScene (World.step w1 e) (World.step w2 e).
Proof.
  intros He H. destruct e as [| | |cart box|delta|ms]; try discriminate;
    cbn [World.step].
  - destruct H as (Hs & Hw & Hh & Hp). rewrite Hs.
    destruct (Scene.physicsEnabled _); repeat split;
      cbn [World.scene World.window World.history World.app];
      congruence.
  - pose proof H as (Hs & Hw & Hh & Hp). rewrite Hs, Hw, Hh, Hp.
    apply sameScene_deliver. repeat split; exact Hp.
  - clear He. induction ms as [|ms IH]; [exact H|].
    rewrite !Nat.iter_succ. apply sameScene_tick. exact IH.
Qed.

(** X11.  The Stop button does not stop anything.  On every page reached
    from mounting, pressing Stop leaves the scene, the timers, the history
    and [isSimulating] as they were; and whatever the engine, the frame
    callback and the clock do afterwards, the scene, the timers and the
    callbacks delivered are exactly those of the page on which Stop was not
    pressed. *)
Theorem stop_does_not_pause (ps : App.Params) (t0 : Z)
    (es after : list World.Event) :
  forallb (fun e => negb (Session.isClick e)) after = true ->
  let w := World.run es (World.mount ps t0) in
  let stopped := World.step w World.ClickStop in
  App.isSimulating (World.app stopped) = App.isSimulating (World.app w)
  /\ World.scene (World.run after stopped) = World.scene (World.run after w)
  /\ World.window (World.run after stopped) = World.window (World.run after w)
  /\ World.history (World.run after stopped)
     = World.history (World.run after w).
Proof.
  intros Hafter w stopped.
  destruct (run_pageOk es _ (mount_pageOk ps t0)) as (_ & Hsync & _).
  fold w in Hsync. unfold Session.synced in Hsync.
  assert (Hsame : Session.sameScene stopped w
                  /\ App.isSimulating (World.app stopped)
                     = App.isSimulating (World.app w)).
  { subst stopped. cbn [World.step]. unfold World.click.
    destruct (App.stopDisabled (World.app w));
      [split; [repeat split|]; reflexivity|].
    unfold World.rerender.
    cbn [World.app World.scene World.window World.history
         App.sceneProps Scene.isSimulating App.handleStop App.isSimulating].
    rewrite Hsync, Bool.eqb_reflx. split; [repeat split|]; reflexivity. }
  destruct Hsame as [Hsame Hsim]. split; [exact Hsim|].
  assert (Hrun : Session.sameScene (World.run after stopped)
                                   (World.run after w)).
  { clear Hsim Hsync. revert Hsame. generalize stopped, w. clear w stopped.
    unfold World.run.
    induction after as [|e after IH]; intros w1 w2 H; [exact H|].
    cbn [forallb] in Hafter. apply andb_true_iff in Hafter.
    destruct Hafter as [He Hrest]. apply negb_true_iff in He.
    cbn [fold_left]. apply (IH Hrest). apply sameScene_step; assumption. }
  destruct Hrun as (Hs & Hw & Hh & _). repeat split; assumption.
Qed.

(** A run at cruising speed: Stop is pressed, and the next frame pushes the
    cart exactly as it would have. *)
Lemma stop_does_not_pause_witness :
  let es := [World.ClickStart;
             World.PhysicsStep (Samples.cartAt 20 4) (Samples.boxOn 20)] in
  let after := [World.Elapse 16; World.Frame (1 / 60)] in
  let w := World.run es (World.mount App.defaults 1000) in
  App.isSimulating (World.app (World.step w World.ClickStop)) = true
  /\ World.scene (World.run after (World.step w World.ClickStop))
     = World.scene (World.run after w).
Proof.
  intros es after w.
  destruct (stop_does_not_pause App.defaults 1000 es after eq_refl)
    as (Hsim & Hscene & _).
  split; [exact Hsim | exact Hscene].
Defined.

(** ** Timing of the reset sequence *)

Lemma later_later (a b : Z) (w : World.t) :
  Session.later a (Session.later b w) = Session.later (b + a) w.
Proof.
  unfold Session.later, advance. cbn. f_equal. f_equal. lia.
Qed.

Lemma later_zero (w : World.t) : Session.later 0 w = w.
Proof.
  destruct w as [a s [c p n] h]. unfold Session.later, advance. cbn.
  f_equal. f_equal. lia.
Qed.

Lemma fireDue_none (fuel : nat) (w : World.t) :
  (forall tm, In tm (pending (World.window w)) ->
              (clock (World.window w) < due tm)%Z) ->
  World.fireDue fuel w = w.
Proof.
  intro Hlate. destruct fuel as [|fuel]; [reflexivity|].
  cbn [World.fireDue].
  destruct (find _ (pending (World.window w))) as [tm|] eqn:Hfind;
    [|reflexivity].
  apply find_some in Hfind. destruct Hfind as [Hin Hdue].
  apply Z.leb_le in Hdue. specialize (Hlate tm Hin). lia.
Qed.

(** While no pending timer comes due, time just passes. *)
Lemma quiet_ticks (k : nat) (w : World.t) :
  (forall tm, In tm (pending (World.window w)) ->
              (clock (World.window w) + Z.of_nat k < due tm)%Z) ->
  Nat.iter k World.tick w = Session.later (Z.of_nat k) w.
Proof.
  induction k as [|k IH]; intro Hlate.
  - cbn. symmetry. apply later_zero.
  - rewrite Nat.iter_succ, IH by (intros tm Hin; specialize (Hlate tm Hin); lia).
    unfold World.tick.
    change {| World.app := World.app (Session.later (Z.of_nat k) w);
              World.scene := World.scene (Session.later (Z.of_nat k) w);
              World.window :=
                advance 1 (World.window (Session.later (Z.of_nat k) w));
              World.history := World.history (Session.later (Z.of_nat k) w) |}
      with (Session.later 1 (Session.later (Z.of_nat k) w)).
    rewrite later_later.
    replace (Z.of_nat k + 1)%Z with (Z.of_nat (S k)) by lia.
    apply fireDue_none. cbn. exact Hlate.
Qed.

(** The single pending timer comes due. *)
Lemma tick_fires_one (w : World.t) (tm : Timer) :
  pending (World.window w) = [tm] ->
  (due tm <= clock (World.window w) + 1)%Z ->
  World.tick w = World.fire tm (Session.later 1 w).
Proof.
  intros Hp Hdue. unfold World.tick.
  change {| World.app := World.app w; World.scene := World.scene w;
            World.window := advance 1 (World.window w);
            World.history := World.history w |}
    with (Session.later 1 w).
  assert (Hp1 : pending (World.window (Session.later 1 w)) = [tm]) by exact Hp.
  rewrite Hp1. cbn [length World.fireDue]. rewrite Hp1. cbn [find].
  replace (due tm <=? clock (World.window (Session.later 1 w)))%Z with true
    by (symmetry; apply Z.leb_le; cbn; exact Hdue).
  reflexivity.
Qed.

(** Time passes until the single pending timer comes due, and it fires. *)
Lemma elapse_fires (k : nat) (v : World.t) (tm : Timer) :
  pending (World.window v) = [tm] ->
  due tm = (clock (World.window v) + Z.of_nat (S k))%Z ->
  World.step v (World.Elapse (S k))
  = World.fire tm (Session.later (Z.of_nat (S k)) v).
Proof.
  intros Hp Hdue. cbn [World.step].
  rewrite Nat.iter_succ, quiet_ticks.
  - rewrite (tick_fires_one (Session.later (Z.of_nat k) v) tm Hp).
    + rewrite later_later. f_equal. f_equal. lia.
    + cbn. lia.
  - intros tm' Hin. rewrite Hp in Hin. destruct Hin as [<- | []]. lia.
Qed.

Lemma click_reset_page (w : World.t) :
  App.isSimulating (World.app w) = true ->
  Session.synced w ->
  World.step w World.ClickReset
  = {| World.app := App.handleReset (World.app w);
       World.scene :=
         Scene.setPrevIsSimulating false
           (Scene.setPhysicsEnabled false
              (Scene.set_telemetry
                 {| Scene.simulationStartTime := None;
                    Scene.initialCartPosition := None |}
                 (World.scene w)));
       World.window := snd (setTimeout ResetCallback 100 (World.window w));
       World.history :=
         World.record
           (World.ResetRequested
              (map tid (filter World.isResetTimer (pending (World.window w)))))
           {| World.app := App.handleReset (World.app w);
              World.scene := World.scene w;
              World.window := World.window w;
              World.history := World.history w |} |}.
Proof.
  intros Hsim Hsync. unfold Session.synced in Hsync.
  cbn [World.step]. unfold World.click, App.resetDisabled.
  rewrite Hsim. cbn [negb andb]. unfold World.rerender.
  cbn [World.app World.scene World.window World.history
       App.sceneProps Scene.isSimulating App.handleReset App.isSimulating].
  rewrite Hsync, Hsim. cbn [Bool.eqb].
  unfold Scene.isSimulatingEffect. rewrite Hsync, Hsim. reflexivity.
Qed.

(** The first stage of a reset, run on a scene with both handles and an
    otherwise empty timer queue. *)
Lemma resetCallback_fields (s : Scene.State) (win : Window)
    (cart box : RigidBody) :
  Scene.cartRef s = Some cart ->
  Scene.boxRef s = Some box ->
  pending win = [] ->
  let st := Scene.resetCallback (s, win) in
  Scene.cartRef (fst st) = Some (World.restingBody (mass cart) RECALCULATED_CART_POSITION)
  /\ Scene.boxRef (fst st) = Some (World.restingBody (mass box) RECALCULATED_BOX_POSITION)
  /\ Scene.flags (fst st)
     = {| Scene.prevIsSimulating := Scene.prevIsSimulating (Scene.flags s);
          Scene.resetJustApplied := true;
          Scene.physicsEnabled := Scene.physicsEnabled (Scene.flags s);
          Scene.resetTimerRef := Some (nextTimerId win) |}
  /\ Scene.wheelRotation (fst st) = 0
  /\ Scene.position (Scene.camera (fst st)) = Scene.initialCameraPosition s
  /\ Scene.follow (fst st) = Scene.noFollowRefs
  /\ Scene.telemetry (fst st) = Scene.telemetry s
  /\ pending (snd st)
     = [ {| tid := nextTimerId win; due := (clock win + 1000)%Z;
            action := ReenableCallback |} ]
  /\ clock (snd st) = clock win.
Proof.
  intros Hcart Hbox Hp st. subst st.
  unfold Scene.resetCallback, Scene.resetSimulation.
  rewrite Hcart. cbn [Scene.boxRef Scene.set_cartRef]. rewrite Hbox.
  cbn [Scene.flags Scene.set_follow Scene.set_camera Scene.setResetJustApplied
       Scene.set_flags Scene.resetTimerRef Scene.setWheelRotation
       Scene.set_boxRef Scene.set_cartRef].
  destruct (Scene.resetTimerRef (Scene.flags s)) as [id|];
    cbn; rewrite Hp; cbn; repeat split.
Qed.

(** What firing each stage of the reset sequence does to the page. *)
Lemma fire_reset_stage (tm : Timer) (v : World.t) :
  action tm = ResetCallback ->
  World.scene (World.fire tm v)
  = fst (Scene.resetCallback
           (World.scene v, clearTimeout (tid tm) (World.window v)))
  /\ World.window (World.fire tm v)
     = snd (Scene.resetCallback
              (World.scene v, clearTimeout (tid tm) (World.window v)))
  /\ World.app (World.fire tm v) = World.app v.
Proof.
  intro Hact. unfold World.fire. rewrite Hact. repeat split.
Qed.

Lemma fire_reenable_stage (tm : Timer) (v : World.t) :
  action tm = ReenableCallback ->
  World.scene (World.fire tm v)
  = Scene.set_resetTimerRef None
      (Scene.setPhysicsEnabled true
         (Scene.setResetJustApplied false (World.scene v)))
  /\ World.window (World.fire tm v) = clearTimeout (tid tm) (World.window v)
  /\ World.app (World.fire tm v) = World.app v.
Proof.
  intro Hact. unfold World.fire. rewrite Hact. repeat split.
Qed.

(** The page right after Reset is pressed. *)
Lemma reset_requested_page (w w1 : World.t) (cart box : RigidBody) :
  App.isSimulating (World.app w) = true ->
  Session.synced w ->
  pending (World.window w) = [] ->
  Scene.cartRef (World.scene w) = Some cart ->
  Scene.boxRef (World.scene w) = Some box ->
  w1 = World.step w World.ClickReset ->
  let stage1 := {| tid := nextTimerId (World.window w);
                   due := (clock (World.window w) + 100)%Z;
                   action := ResetCallback |} in
  (Scene.physicsEnabled (Scene.flags (World.scene w1)) = false
   /\ Scene.cartRef (World.scene w1) = Some cart
   /\ Scene.boxRef (World.scene w1) = Some box)
  /\ pending (World.window w1) = [stage1]
  /\ due stage1 = (clock (World.window w1) + Z.of_nat 100)%Z.
Proof.
  intros Hsim Hsync Hp Hcart Hbox E1 stage1.
  rewrite (click_reset_page w Hsim Hsync) in E1. subst w1.
  cbn. rewrite Hp. repeat split; assumption.
Qed.

(** The page right after the first stage has fired. *)
Lemma reset_applied_page (w w1 w2 : World.t) (cart box : RigidBody) :
  App.isSimulating (World.app w) = true ->
  Session.synced w ->
  pending (World.window w) = [] ->
  Scene.cartRef (World.scene w) = Some cart ->
  Scene.boxRef (World.scene w) = Some box ->
  w1 = World.step w World.ClickReset ->
  let stage1 := {| tid := nextTimerId (World.window w);
                   due := (clock (World.window w) + 100)%Z;
                   action := ResetCallback |} in
  let stage2 := {| tid := Pos.succ (nextTimerId (World.window w));
                   due := (clock (World.window w) + 1100)%Z;
                   action := ReenableCallback |} in
  w2 = World.fire stage1 (Session.later (Z.of_nat 100) w1) ->
  (Scene.cartRef (World.scene w2)
   = Some (World.restingBody (mass cart) RECALCULATED_CART_POSITION)
   /\ Scene.boxRef (World.scene w2)
      = Some (World.restingBody (mass box) RECALCULATED_BOX_POSITION)
   /\ Scene.position (Scene.camera (World.scene w2))
      = Scene.initialCameraPosition (World.scene w)
   /\ Scene.follow (World.scene w2) = Scene.noFollowRefs
   /\ Scene.physicsEnabled (Scene.flags (World.scene w2)) = false
   /\ Scene.resetJustApplied (Scene.flags (World.scene w2)) = true)
  /\ pending (World.window w2) = [stage2]
  /\ due stage2 = (clock (World.window w2) + Z.of_nat 1000)%Z
  /\ Scene.prevIsSimulating (Scene.flags (World.scene w2)) = false
  /\ Scene.telemetry (World.scene w2)
     = {| Scene.simulationStartTime := None;
          Scene.initialCartPosition := None |}
  /\ World.app w2 = App.handleReset (World.app w).
Proof.
  intros Hsim Hsync Hp Hcart Hbox E1 stage1 stage2 E2.
  rewrite (click_reset_page w Hsim Hsync) in E1.
  destruct (fire_reset_stage stage1 (Session.later (Z.of_nat 100) w1) eq_refl)
    as (S2 & W2 & A2).
  rewrite <- E2 in S2, W2, A2.
  set (s1 := World.scene (Session.later (Z.of_nat 100) w1)) in *.
  set (win1 := clearTimeout (tid stage1)
                 (World.window (Session.later (Z.of_nat 100) w1))) in *.
  assert (Hcart1 : Scene.cartRef s1 = Some cart)
    by (subst s1; rewrite E1; exact Hcart).
  assert (Hbox1 : Scene.boxRef s1 = Some box)
    by (subst s1; rewrite E1; exact Hbox).
  assert (Hwin1 : pending win1 = []).
  { subst win1. rewrite E1. cbn. rewrite Hp. cbn.
    rewrite Pos.eqb_refl. reflexivity. }
  assert (Hclk1 : clock win1 = (clock (World.window w) + 100)%Z)
    by (subst win1; rewrite E1; cbn; lia).
  assert (Hnext1 : nextTimerId win1 = Pos.succ (nextTimerId (World.window w)))
    by (subst win1; rewrite E1; reflexivity).
  destruct (resetCallback_fields s1 win1 cart box Hcart1 Hbox1 Hwin1)
    as (Rc & Rb & Rf & _ & Rcam & Rfo & Rt & Rp & Rclk).
  rewrite S2, W2, A2, Rc, Rb, Rf, Rcam, Rfo, Rt, Rp, Rclk, Hclk1, Hnext1.
  subst s1 stage2. rewrite E1. cbn. repeat split.
  - f_equal. f_equal. lia.
  - lia.
Qed.

(** The page right after the second stage has fired. *)
Lemma reset_released_page (w2 w3 : World.t) (stage2 : Timer) :
  pending (World.window w2) = [stage2] ->
  action stage2 = ReenableCallback ->
  w3 = World.fire stage2 (Session.later (Z.of_nat 1000) w2) ->
  Scene.cartRef (World.scene w3) = Scene.cartRef (World.scene w2)
  /\ Scene.boxRef (World.scene w3) = Scene.boxRef (World.scene w2)
  /\ Scene.flags (World.scene w3)
     = {| Scene.prevIsSimulating :=
            Scene.prevIsSimulating (Scene.flags (World.scene w2));
          Scene.resetJustApplied := false;
          Scene.physicsEnabled := true;
          Scene.resetTimerRef := None |}
  /\ Scene.telemetry (World.scene w3) = Scene.telemetry (World.scene w2)
  /\ pending (World.window w3) = []
  /\ clock (World.window w3) = (clock (World.window w2) + 1000)%Z
  /\ World.app w3 = World.app w2.
Proof.
  intros Hp2 Hact E3.
  destruct (fire_reenable_stage stage2 (Session.later (Z.of_nat 1000) w2) Hact)
    as (S3 & W3 & A3).
  rewrite <- E3 in S3, W3, A3. rewrite S3, W3, A3.
  cbn. rewrite Hp2. cbn. rewrite Pos.eqb_refl. repeat split.
Qed.

(** X12.  The reset sequence, end to end.  On a page that is simulating,
    with both body handles and no timer pending, pressing Reset switches
    physics off at once and leaves the bodies where they are; 100 ms later
    the cart and the box are exactly in their mounted state (recalculated
    positions, zero velocities, identity rotation), the camera is back at its
    initial position, the captured run data is dropped and the lock is on,
    physics still off; a further 1000 ms later physics is on again, the lock
    is off, no timer is pending and the shell is idle.  The whole sequence
    takes 1100 ms. *)
Theorem reset_sequence (w : World.t) (cart box : RigidBody) :
  App.isSimulating (World.app w) = true ->
  Session.synced w ->
  pending (World.window w) = [] ->
  Scene.cartRef (World.scene w) = Some cart ->
  Scene.boxRef (World.scene w) = Some box ->
  let w1 := World.step w World.ClickReset in
  let w2 := World.step w1 (World.Elapse 100) in
  let w3 := World.step w2 (World.Elapse 1000) in
  (Scene.physicsEnabled (Scene.flags (World.scene w1)) = false
   /\ Scene.cartRef (World.scene w1) = Some cart
   /\ Scene.boxRef (World.scene w1) = Some box)
  /\ (Scene.cartRef (World.scene w2)
      = Some (World.restingBody (mass cart) RECALCULATED_CART_POSITION)
      /\ Scene.boxRef (World.scene w2)
         = Some (World.restingBody (mass box) RECALCULATED_BOX_POSITION)
      /\ Scene.position (Scene.camera (World.scene w2))
         = Scene.initialCameraPosition (World.scene w)
      /\ Scene.follow (World.scene w2) = Scene.noFollowRefs
      /\ Scene.physicsEnabled (Scene.flags (World.scene w2)) = false
      /\ Scene.resetJustApplied (Scene.flags (World.scene w2)) = true)
  /\ (Scene.cartRef (World.scene w3)
      = Some (World.restingBody (mass cart) RECALCULATED_CART_POSITION)
      /\ Scene.boxRef (World.scene w3)
         = Some (World.restingBody (mass box) RECALCULATED_BOX_POSITION)
      /\ Scene.flags (World.scene w3)
         = {| Scene.prevIsSimulating := false;
              Scene.resetJustApplied := false;
              Scene.physicsEnabled := true;
              Scene.resetTimerRef := None |}
      /\ Scene.telemetry (World.scene w3)
         = {| Scene.simulationStartTime := None;
              Scene.initialCartPosition := None |}
      /\ pending (World.window w3) = []
      /\ clock (World.window w3) = (clock (World.window w) + 1100)%Z
      /\ App.idle (World.app w3) = true).
Proof.
  intros Hsim Hsync Hp Hcart Hbox w1 w2 w3.
  destruct (reset_requested_page w w1 cart box Hsim Hsync Hp Hcart Hbox eq_refl)
    as (F1 & Hp1 & Hdue1).
  pose proof (elapse_fires 99 w1 _ Hp1 Hdue1) as E2.
  destruct (reset_applied_page w w1 w2 cart box Hsim Hsync Hp Hcart Hbox
              eq_refl E2)
    as (F2 & Hp2 & Hdue2 & Hprev2 & Ht2 & A2).
  pose proof (elapse_fires 999 w2 _ Hp2 Hdue2) as E3.
  destruct (reset_released_page w2 w3 _ Hp2 eq_refl E3)
    as (Hc3 & Hb3 & Hf3 & Ht3 & Hp3 & Hclk3 & A3).
  split; [exact F1|]. split; [exact F2|].
  destruct F2 as (Hc2 & Hb2 & _).
  split; [exact (eq_trans Hc3 Hc2)|].
  split; [exact (eq_trans Hb3 Hb2)|].
  split; [exact (eq_trans Hf3
                   (f_equal (fun b => {| Scene.prevIsSimulating := b;
                                         Scene.resetJustApplied := false;
                                         Scene.physicsEnabled := true;
                                         Scene.resetTimerRef := None |})
                            Hprev2))|].
  split; [exact (eq_trans Ht3 Ht2)|].
  split; [exact Hp3|].
  split.
  - apply (eq_trans Hclk3).
    apply (f_equal (fun c => (c + 1000)%Z)) in Hdue2.
    cbn [due] in Hdue2. lia.
  - apply (eq_trans (f_equal App.idle (eq_trans A3 A2))). reflexivity.
Qed.

(** A run at x = 37, the box thrown off and tilted: 1100 ms after Reset the
    page is as mounted. *)
Lemma reset_sequence_witness :
  let box := Samples.body (Vec3.mk 38.5 0.25 0.3) (Vec3.mk 5 (-2) 0.1)
                          (Quat.mk 0.6 0 0 0.8) in
  let w := World.run [World.ClickStart;
                      World.PhysicsStep (Samples.cartAt 37 6) box;
                      World.Elapse 16; World.Frame (1 / 60)]
                     (World.mount App.defaults 1000) in
  let w3 := World.step (World.step (World.step w World.ClickReset)
                                   (World.Elapse 100))
                       (World.Elapse 1000) in
  Scene.cartRef (World.scene w3)
  = Some (World.restingBody World.cartBodyMass RECALCULATED_CART_POSITION)
  /\ Scene.boxRef (World.scene w3)
     = Some (World.restingBody World.boxBodyMass RECALCULATED_BOX_POSITION)
  /\ Scene.physicsEnabled (Scene.flags (World.scene w3)) = true
  /\ pending (World.window w3) = [].
Proof.
  intros box w w3.
  assert (Hcart : exists cart, Scene.cartRef (World.scene w) = Some cart)
    by (eexists; vm_compute; reflexivity).
  destruct Hcart as [cart Hcart].
  destruct (reset_sequence w cart box eq_refl eq_refl eq_refl Hcart eq_refl)
    as (_ & _ & (Hc3 & Hb3 & Hf3 & _ & Hp3 & _)).
  assert (Hm : mass cart = World.cartBodyMass).
  { assert (H : Scene.cartRef (World.scene w)
                = Some (applyImpulse (Vec3.mk (5 * (1 / 60) * 10) 0 0) true
                          (Samples.cartAt 37 6)))
      by (vm_compute; reflexivity).
    rewrite H in Hcart. injection Hcart as <-. reflexivity. }
  rewrite Hm in Hc3.
  split; [exact Hc3|]. split; [exact Hb3|].
  split; [exact (f_equal Scene.physicsEnabled Hf3) | exact Hp3].
Defined.
